(** * GWin32InputStream: an input stream over a Win32 file handle

    A shallow embedding of [gio/gwin32inputstream.c] and the properties of
    its construction, accessors, [read] and [close] operations.

    The C functions run in a small state-and-crash monad over a [World]
    that holds the heap of stream instances, the state of the operating
    system and the chronological log of every call that leaves the file
    (Win32 calls, GObject notifications, GLib warnings, cancellation
    polls).  The Win32 API itself and the GLib helpers whose code lives in
    other files are the fields of the [Win32] class. *)

From Stdlib Require Import ZArith String Ascii List Lia.
From stdpp Require Import base gmap strings list.

Local Open Scope string_scope.
Local Open Scope Z_scope.

(** ** Machine integers *)

(** [DWORD] is an unsigned 32-bit integer, [int]/[gint]/[BOOL]/[gboolean]
    a signed 32-bit one.  Conversions wrap around. *)
Definition to_DWORD (z : Z) : Z := z mod 2 ^ 32.

Definition to_signed (bits z : Z) : Z :=
  let m := z mod 2 ^ bits in
  if m <? 2 ^ (bits - 1) then m else m - 2 ^ bits.

Definition to_gint (z : Z) : Z := to_signed 32 z.

(** [G_MAXINT] is [INT_MAX] of a 32-bit [int]. *)
Definition G_MAXINT : Z := 2147483647.

(** GLib's [FALSE] is [0] and [TRUE] is [!FALSE]. *)
Definition FALSE : Z := 0.
Definition TRUE : Z := 1.

(** A C comparison yields the [int] 1 or 0. *)
Definition c_bool (b : bool) : Z := if b then 1 else 0.

(** The null pointer. *)
Definition NULL : Z := 0.

(** ** Data *)

(** [struct _GWin32InputStreamPrivate]: the handle is a pointer-sized
    opaque value, [close_handle] a [gboolean], that is an [int]. *)
Record GWin32InputStreamPrivate := {
  handle : Z;
  close_handle : Z
}.

(** The property identifiers of the anonymous [enum]. *)
Inductive prop_id := PROP_0 | PROP_HANDLE | PROP_CLOSE_HANDLE.

(** A [GValue] as far as the two installed properties need it. *)
Inductive GValue :=
| VPointer (p : Z)
| VBoolean (b : Z).

(** [g_value_get_pointer] and [g_value_get_boolean] read the payload of a
    value of the matching type (on another type they fail their check and
    return [NULL] and [FALSE]). *)
Definition g_value_get_pointer (v : GValue) : Z :=
  match v with VPointer p => p | VBoolean _ => NULL end.

Definition g_value_get_boolean (v : GValue) : Z :=
  match v with VBoolean b => b | VPointer _ => FALSE end.

(** A [GError]: domain, code and message. *)
Record GError := {
  domain : string;
  code : Z;
  message : string
}.

Definition G_IO_ERROR : string := "g-io-error-quark".

(** A [GCancellable *] argument: [None] is the null pointer, [Some c] a
    token whose cancelled flag currently reads [c]. *)
Definition GCancellable := option bool.

(** Everything a call can do that is visible outside this file. *)
Inductive event :=
| EvCancelPoll
| EvReadFile (h : Z) (nbytes : Z)
| EvGetLastError
| EvCloseHandle (h : Z)
| EvNotify (object : Z) (property : string)
| EvCritical (expr : string)
| EvInvalidPropertyId (object : Z).

Global Instance event_eq_dec : EqDecision event.
Proof. solve_decision. Defined.

(** ** The platform *)

(** The Win32 calls and the GLib helpers defined outside this file.
    [ReadFile h buffer nbytes] returns the [BOOL] result, the contents of
    the buffer after the call and the value written to [nread];
    [GetLastError] reads the calling thread's last error code;
    [CloseHandle] returns its [BOOL] result.  [gettext] is the message
    catalogue behind the [_()] macro, and [gsize_bits] the width of
    [gsize] and [gssize], 32 bits at least. *)
Class Win32 := {
  OS : Type;
  ReadFile : Z -> list Byte.byte -> Z -> OS -> (Z * list Byte.byte * Z) * OS;
  GetLastError : OS -> Z;
  CloseHandle : Z -> OS -> Z * OS;
  ERROR_HANDLE_EOF : Z;
  ERROR_BROKEN_PIPE : Z;
  g_win32_error_message : Z -> string;
  g_io_error_from_win32_error : Z -> Z;
  G_IO_ERROR_CANCELLED : Z;
  gettext : string -> string;
  gsize_bits : Z;
  gsize_bits_min : 32 <= gsize_bits
}.

Definition to_gssize `{Win32} (z : Z) : Z := to_signed gsize_bits z.

(** ** The world and the monad *)

Record World `{Win32} := {
  heap : gmap Z GWin32InputStreamPrivate;
  os : OS;
  log : list event
}.

(** A computation either crashes ([None]: it dereferenced a pointer that
    is not a live instance) or returns a value and the next world. *)
Definition Run `{Win32} (A : Type) : Type := World -> option (A * World).

Global Instance run_ret `{Win32} : MRet Run := fun A a w => Some (a, w).

Global Instance run_bind `{Win32} : MBind Run := fun A B k m w =>
  match m w with
  | Some (a, w') => k a w'
  | None => None
  end.

Definition emit `{Win32} (e : event) : Run unit :=
  fun w => Some (tt, {| heap := heap w; os := os w; log := log w ++ [e] |}).

(** [stream->priv]: crashes on a pointer that is no instance. *)
Definition priv `{Win32} (stream : Z) : Run GWin32InputStreamPrivate :=
  fun w => match heap w !! stream with
           | Some p => Some (p, w)
           | None => None
           end.

Definition set_priv `{Win32} (stream : Z) (p : GWin32InputStreamPrivate) : Run unit :=
  fun w => match heap w !! stream with
           | Some _ => Some (tt, {| heap := <[stream := p]> (heap w);
                                    os := os w; log := log w |})
           | None => None
           end.

(** [G_IS_WIN32_INPUT_STREAM (stream)]: the instance type check. *)
Definition G_IS_WIN32_INPUT_STREAM `{Win32} (stream : Z) : Run bool :=
  fun w => Some (bool_decide (is_Some (heap w !! stream)), w).

(** The warning of a failed [g_return_if_fail] / [g_return_val_if_fail]
    (GLib built with its checks enabled, as it is by default). *)
Definition g_return_if_fail_warning `{Win32} (expr : string) : Run unit :=
  emit (EvCritical expr).

Definition g_object_notify `{Win32} (object : Z) (property : string) : Run unit :=
  emit (EvNotify object property).

(** The three Win32 calls, each recorded in the log. *)
Definition call_ReadFile `{Win32} (h : Z) (buffer : list Byte.byte) (nbytes : Z)
  : Run (Z * list Byte.byte * Z) :=
  fun w => let '(r, o) := ReadFile h buffer nbytes (os w) in
           Some (r, {| heap := heap w; os := o;
                       log := log w ++ [EvReadFile h nbytes] |}).

Definition call_GetLastError `{Win32} : Run Z :=
  fun w => Some (GetLastError (os w),
                 {| heap := heap w; os := os w; log := log w ++ [EvGetLastError] |}).

Definition call_CloseHandle `{Win32} (h : Z) : Run Z :=
  fun w => let '(r, o) := CloseHandle h (os w) in
           Some (r, {| heap := heap w; os := o;
                       log := log w ++ [EvCloseHandle h] |}).

(** ** GLib helpers *)

(** [printf] formatting restricted to the [%s] and [%%] directives, as
    [g_set_error] applies it to its format and arguments. *)
Fixpoint g_strdup_printf (format : string) (args : list string) : string :=
  match format with
  | EmptyString => EmptyString
  | String c rest =>
      if Ascii.eqb c "%"%char then
        match rest with
        | String d rest' =>
            if Ascii.eqb d "s"%char then
              match args with
              | a :: args' => String.append a (g_strdup_printf rest' args')
              | [] => String.append "(null)" (g_strdup_printf rest' [])
              end
            else String d (g_strdup_printf rest' args)
        | EmptyString => EmptyString
        end
      else String c (g_strdup_printf rest args)
  end.

(** [g_set_error (error, domain, code, format, ...)] on an empty error
    location. *)
Definition g_set_error (dom : string) (c : Z) (format : string) (args : list string)
  : option GError :=
  Some {| domain := dom; code := c; message := g_strdup_printf format args |}.

(** Modelled from the spec: [g_cancellable_set_error_if_cancelled] is
    defined in gcancellable.c, which is not part of the sources at hand.
    It polls the token once; if the token is in the cancelled state it
    sets a Cancelled error and returns true, otherwise it returns false
    and sets nothing.  A null token is never cancelled. *)
Definition g_cancellable_set_error_if_cancelled `{Win32} (cancellable : GCancellable)
  : Run (bool * option GError) :=
  emit EvCancelPoll;;
  match cancellable with
  | Some true =>
      mret (true, Some {| domain := G_IO_ERROR; code := G_IO_ERROR_CANCELLED;
                         message := gettext "Operation was cancelled" |})
  | _ => mret (false, None)
  end.

(** ** The functions of gwin32inputstream.c *)

Definition g_win32_input_stream_set_property `{Win32}
    (object : Z) (id : prop_id) (value : GValue) : Run unit :=
  p ← priv object;
  match id with
  | PROP_HANDLE =>
      set_priv object {| handle := g_value_get_pointer value;
                         close_handle := close_handle p |}
  | PROP_CLOSE_HANDLE =>
      set_priv object {| handle := handle p;
                         close_handle := g_value_get_boolean value |}
  | PROP_0 => emit (EvInvalidPropertyId object)
  end.

Definition g_win32_input_stream_get_property `{Win32}
    (object : Z) (id : prop_id) : Run (option GValue) :=
  p ← priv object;
  match id with
  | PROP_HANDLE => mret (Some (VPointer (handle p)))
  | PROP_CLOSE_HANDLE => mret (Some (VBoolean (close_handle p)))
  | PROP_0 => emit (EvInvalidPropertyId object) ;; mret None
  end.

(** The private data as [g_win32_input_stream_init] leaves it. *)
Definition g_win32_input_stream_init : GWin32InputStreamPrivate :=
  {| handle := NULL; close_handle := TRUE |}.

(** The properties [g_win32_input_stream_class_init] installs, by name. *)
Definition property_by_name (name : string) : prop_id :=
  if String.eqb name "handle" then PROP_HANDLE
  else if String.eqb name "close-handle" then PROP_CLOSE_HANDLE
  else PROP_0.

(** Modelled from the spec: [g_object_new] belongs to the object system,
    whose code is not part of the sources at hand.  Construction has no
    side effect beyond storing the fields: a fresh, non-null instance is
    allocated and initialised by [g_win32_input_stream_init], then every
    named property is set through [g_win32_input_stream_set_property], in
    the order given. *)
Fixpoint set_properties `{Win32} (object : Z) (props : list (string * GValue)) : Run unit :=
  match props with
  | [] => mret tt
  | (name, value) :: rest =>
      g_win32_input_stream_set_property object (property_by_name name) value;;
      set_properties object rest
  end.

Definition g_object_new `{Win32} (props : list (string * GValue)) : Run Z :=
  fun w =>
    let object := fresh ({[NULL]} ∪ dom (heap w)) in
    (set_properties object props;; mret object)
      {| heap := <[object := g_win32_input_stream_init]> (heap w);
         os := os w; log := log w |}.

Definition g_win32_input_stream_new `{Win32} (handle : Z) (close_handle : Z) : Run Z :=
  if bool_decide (handle = NULL) then
    g_return_if_fail_warning "handle != NULL" ;; mret NULL
  else
    g_object_new [("handle", VPointer handle);
                  ("close-handle", VBoolean close_handle)].

Definition g_win32_input_stream_set_close_handle `{Win32}
    (stream : Z) (close_handle' : Z) : Run unit :=
  valid ← G_IS_WIN32_INPUT_STREAM stream;
  if negb valid then
    g_return_if_fail_warning "G_IS_WIN32_INPUT_STREAM (stream)"
  else
    let close_handle' := c_bool (negb (close_handle' =? FALSE)) in
    p ← priv stream;
    if negb (close_handle p =? close_handle') then
      set_priv stream {| handle := handle p; close_handle := close_handle' |};;
      g_object_notify stream "close-handle"
    else mret tt.

Definition g_win32_input_stream_get_close_handle `{Win32} (stream : Z) : Run Z :=
  valid ← G_IS_WIN32_INPUT_STREAM stream;
  if negb valid then
    g_return_if_fail_warning "G_IS_WIN32_INPUT_STREAM (stream)" ;; mret FALSE
  else
    p ← priv stream;
    mret (close_handle p).

Definition g_win32_input_stream_get_handle `{Win32} (stream : Z) : Run Z :=
  valid ← G_IS_WIN32_INPUT_STREAM stream;
  if negb valid then
    g_return_if_fail_warning "G_IS_WIN32_INPUT_STREAM (stream)" ;; mret NULL
  else
    p ← priv stream;
    mret (handle p).

(** What [read] hands back: the [gssize] it returns, the caller's buffer
    after the call and the error location, which the caller passes in
    empty. *)
Record read_result := {
  bytes_read : Z;
  buffer_after : list Byte.byte;
  read_error : option GError
}.

(** What [close] hands back: the [gboolean] it returns and the error
    location. *)
Record close_result := {
  closed : Z;
  close_error : option GError
}.

(** The length [read] passes to [ReadFile]: [count] capped at [G_MAXINT],
    stored in the [DWORD] [nbytes]. *)
Definition read_length (count : Z) : Z :=
  if count >? G_MAXINT then to_DWORD G_MAXINT else to_DWORD count.

Definition g_win32_input_stream_read `{Win32}
    (stream : Z) (buffer : list Byte.byte) (count : Z) (cancellable : GCancellable)
  : Run read_result :=
  '(cancelled, err) ← g_cancellable_set_error_if_cancelled cancellable;
  if cancelled : bool then
    mret {| bytes_read := -1; buffer_after := buffer; read_error := err |}
  else
    let nbytes := read_length count in
    p ← priv stream;
    '(res, buffer', nread) ← call_ReadFile (handle p) buffer nbytes;
    if res =? 0 then
      last ← call_GetLastError;
      let errsv := to_gint last in
      if (errsv =? ERROR_HANDLE_EOF) || (errsv =? ERROR_BROKEN_PIPE) then
        mret {| bytes_read := 0; buffer_after := buffer'; read_error := None |}
      else
        let emsg := g_win32_error_message errsv in
        mret {| bytes_read := -1; buffer_after := buffer';
               read_error := g_set_error G_IO_ERROR (g_io_error_from_win32_error errsv)
                          (gettext "Error reading from handle: %s") [emsg] |}
    else
      mret {| bytes_read := to_gssize nread; buffer_after := buffer'; read_error := None |}.

Definition g_win32_input_stream_close `{Win32}
    (stream : Z) (cancellable : GCancellable) : Run close_result :=
  p ← priv stream;
  if close_handle p =? 0 then
    mret {| closed := TRUE; close_error := None |}
  else
    res ← call_CloseHandle (handle p);
    if res =? 0 then
      last ← call_GetLastError;
      let errsv := to_gint last in
      let emsg := g_win32_error_message errsv in
      mret {| closed := FALSE;
             close_error := g_set_error G_IO_ERROR (g_io_error_from_win32_error errsv)
                        (gettext "Error closing handle: %s") [emsg] |}
    else
      mret {| closed := TRUE; close_error := None |}.

(** ** A simulated platform

    One pipe-like handle table: reading an open handle drains [pending];
    once it is empty the read fails with [at_end].  Reading or closing a
    handle that is not open fails with [ERROR_INVALID_HANDLE]. *)
Module Mock.

Record os_state := {
  pending : list Byte.byte;
  at_end : Z;
  open_handles : list Z;
  last_error : Z
}.

Definition ERROR_ACCESS_DENIED : Z := 5.
Definition ERROR_INVALID_HANDLE : Z := 6.

Definition is_open (h : Z) (o : os_state) : bool :=
  existsb (Z.eqb h) (open_handles o).

Definition fail_with (e : Z) (o : os_state) : os_state :=
  {| pending := pending o; at_end := at_end o;
     open_handles := open_handles o; last_error := e |}.

Definition mock_ReadFile (h : Z) (buffer : list Byte.byte) (nbytes : Z) (o : os_state)
  : (Z * list Byte.byte * Z) * os_state :=
  if negb (is_open h o) then ((0, buffer, 0), fail_with ERROR_INVALID_HANDLE o)
  else match pending o with
       | [] => ((0, buffer, 0), fail_with (at_end o) o)
       | _ =>
           let n := Z.to_nat (Z.min nbytes (Z.of_nat (length (pending o)))) in
           let got := take n (pending o) in
           ((1, (got ++ drop (length got) buffer)%list, Z.of_nat (length got)),
            {| pending := drop n (pending o); at_end := at_end o;
               open_handles := open_handles o; last_error := last_error o |})
       end.

Definition mock_CloseHandle (h : Z) (o : os_state) : Z * os_state :=
  if is_open h o then
    (1, {| pending := pending o; at_end := at_end o;
           open_handles := List.filter (fun h' => negb (h =? h')) (open_handles o);
           last_error := last_error o |})
  else (0, fail_with ERROR_INVALID_HANDLE o).

Definition error_message (e : Z) : string :=
  if e =? ERROR_ACCESS_DENIED then "Access is denied."
  else if e =? ERROR_INVALID_HANDLE then "The handle is invalid."
  else "Unknown error".

Definition io_error_kind (e : Z) : Z :=
  if e =? ERROR_ACCESS_DENIED then 14 else 0.

Definition platform : Win32 := {|
  OS := os_state;
  ReadFile := mock_ReadFile;
  GetLastError := last_error;
  CloseHandle := mock_CloseHandle;
  ERROR_HANDLE_EOF := 38;
  ERROR_BROKEN_PIPE := 109;
  g_win32_error_message := error_message;
  g_io_error_from_win32_error := io_error_kind;
  G_IO_ERROR_CANCELLED := 19;
  gettext := fun s => s;
  gsize_bits := 64;
  gsize_bits_min := ltac:(easy)
|}.

(** A pipe holding the bytes 1, 2, 3 behind handle 7. *)
Definition pipe (end_code : Z) : os_state :=
  {| pending := [Byte.x01; Byte.x02; Byte.x03]; at_end := end_code;
     open_handles := [7]; last_error := 0 |}.

Definition drained (end_code : Z) : os_state :=
  {| pending := []; at_end := end_code; open_handles := [7]; last_error := 0 |}.

(** The same pipe once handle 7 has been released. *)
Definition released : os_state :=
  {| pending := []; at_end := 109; open_handles := []; last_error := 0 |}.

Definition boot (o : os_state) : @World platform :=
  @Build_World platform ∅ o [].

(** A world whose only stream, at address 1, wraps handle 7. *)
Definition wrapped (flag : Z) : GWin32InputStreamPrivate :=
  {| handle := 7; close_handle := flag |}.

Definition world_with (flag : Z) (o : os_state) : @World platform :=
  @Build_World platform {[ 1 := wrapped flag ]} o [].

End Mock.

(** ** Reading the log *)

Definition is_read_call (e : event) : bool :=
  match e with EvReadFile _ _ => true | _ => false end.

Definition is_release_call (e : event) : bool :=
  match e with EvCloseHandle _ => true | _ => false end.

Definition is_os_call (e : event) : bool :=
  match e with
  | EvReadFile _ _ | EvGetLastError | EvCloseHandle _ => true
  | _ => false
  end.

Definition is_notification (e : event) : bool :=
  match e with EvNotify _ _ => true | _ => false end.

Definition is_cancel_poll (e : event) : bool :=
  match e with EvCancelPoll => true | _ => false end.

Definition count_events (f : event -> bool) (l : list event) : nat :=
  length (List.filter f l).

(** The world after a call that left the heap alone, moved the operating
    system to [o] and appended [es] to the log. *)
Definition advance `{Win32} (w : World) (o : OS) (es : list event) : World :=
  {| heap := heap w; os := o; log := log w ++ es |}.

(** The canonical boolean [set_close_handle] computes from its argument. *)
Definition normalised (b : Z) : Z := c_bool (negb (b =? FALSE)).

(** The world after a call that changed the flag of [stream], whose
    private data was [p], to [flag]. *)
Definition flag_changed `{Win32} (w : World) (stream : Z)
    (p : GWin32InputStreamPrivate) (flag : Z) : World :=
  {| heap := <[stream := {| handle := handle p; close_handle := flag |}]> (heap w);
     os := os w;
     log := log w ++ [EvNotify stream "close-handle"] |}.

(** ** Formats and messages *)

(** Whether formatting [format] reaches a [%s] directive. *)
Fixpoint has_string_directive (format : string) : bool :=
  match format with
  | EmptyString => false
  | String c rest =>
      if Ascii.eqb c "%"%char then
        match rest with
        | String d rest' =>
            if Ascii.eqb d "s"%char then true else has_string_directive rest'
        | EmptyString => false
        end
      else has_string_directive rest
  end.

(** [part] occurs in [msg]. *)
Definition embeds (msg part : string) : Prop :=
  exists pre post, msg = String.append pre (String.append part post).

(** * Properties *)

Lemma to_DWORD_small (z : Z) : 0 <= z < 2 ^ 32 -> to_DWORD z = z.
Proof. intros Hz. unfold to_DWORD. now apply Z.mod_small. Qed.

Lemma read_length_min (count : Z) :
  0 <= count -> read_length count = Z.min count G_MAXINT.
Proof.
  intros Hc. unfold read_length, G_MAXINT.
  destruct (Z.gtb_spec count 2147483647) as [Hgt | Hle].
  - rewrite Z.min_r by lia. now apply to_DWORD_small.
  - rewrite Z.min_l by lia. apply to_DWORD_small. lia.
Qed.

Lemma read_length_idem (count : Z) :
  0 <= count -> read_length (Z.min count G_MAXINT) = read_length count.
Proof.
  intros Hc. rewrite !read_length_min; unfold G_MAXINT in *; lia.
Qed.

Lemma to_signed_small (bits z : Z) :
  32 <= bits -> 0 <= z <= G_MAXINT -> to_signed bits z = z.
Proof.
  intros Hb Hz. unfold to_signed, G_MAXINT in *.
  assert (H31 : 2 ^ 31 <= 2 ^ (bits - 1)) by (apply Z.pow_le_mono_r; lia).
  assert (Hlt : 2 ^ (bits - 1) < 2 ^ bits) by (apply Z.pow_lt_mono_r; lia).
  change (2 ^ 31) with 2147483648 in H31.
  cbv zeta. rewrite Z.mod_small by lia.
  destruct (Z.ltb_spec z (2 ^ (bits - 1))); lia.
Qed.

Lemma embeds_cons (c : ascii) (msg part : string) :
  embeds msg part -> embeds (String c msg) part.
Proof.
  intros (pre & post & ->). exists (String c pre), post. reflexivity.
Qed.

Lemma embeds_prefix (part rest : string) : embeds (String.append part rest) part.
Proof. exists EmptyString, rest. reflexivity. Qed.

(** Formatting a format that reaches [%s] embeds the first argument. *)
Lemma g_strdup_printf_embeds (format a : string) (args : list string) :
  has_string_directive format = true ->
  embeds (g_strdup_printf format (a :: args)) a.
Proof.
  enough (Hboth : (has_string_directive format = true ->
                   embeds (g_strdup_printf format (a :: args)) a) /\
                  (forall c, has_string_directive (String c format) = true ->
                             embeds (g_strdup_printf (String c format) (a :: args)) a))
    by apply Hboth.
  induction format as [| d rest [IH1 IH2]].
  - split; [discriminate |].
    intros c. simpl. destruct (Ascii.eqb c "%"); discriminate.
  - split; [apply IH2 |].
    intros c. simpl has_string_directive. simpl g_strdup_printf.
    destruct (Ascii.eqb c "%").
    + destruct (Ascii.eqb d "s").
      * intros _. apply embeds_prefix.
      * intros Hd. apply embeds_cons. now apply IH1.
    + intros Hd. apply embeds_cons. now apply IH2.
Qed.

(** Unfolding the monad and the primitive operations. *)
Ltac unfold_run :=
  unfold g_cancellable_set_error_if_cancelled, g_return_if_fail_warning,
    g_object_notify, G_IS_WIN32_INPUT_STREAM, call_ReadFile, call_GetLastError,
    call_CloseHandle, priv, set_priv, advance in *;
  unfold mbind, run_bind, mret, run_ret, emit in *;
  cbn [heap os log] in *.

Ltac tidy_log := cbn [heap os log]; rewrite <- ?app_assoc; cbn [app].

(** ** Reading *)

Section Read.
Context `{Win32}.

Variables (w : World) (stream : Z) (p : GWin32InputStreamPrivate).
Variables (buffer : list Byte.byte) (cancellable : GCancellable).
Hypothesis Hstream : heap w !! stream = Some p.
Hypothesis Hlive : cancellable <> Some true.

(** A read on a live token issues its [ReadFile] and branches on the
    result exactly as the source does. *)
Lemma read_issues_call (count res nread : Z) (buffer' : list Byte.byte) (o : OS) :
  ReadFile (handle p) buffer (read_length count) (os w) = (res, buffer', nread, o) ->
  g_win32_input_stream_read stream buffer count cancellable w =
  if res =? 0 then
    let errsv := to_gint (GetLastError o) in
    Some (if (errsv =? ERROR_HANDLE_EOF) || (errsv =? ERROR_BROKEN_PIPE) then
            {| bytes_read := 0; buffer_after := buffer'; read_error := None |}
          else
            {| bytes_read := -1; buffer_after := buffer';
               read_error :=
                 g_set_error G_IO_ERROR (g_io_error_from_win32_error errsv)
                   (gettext "Error reading from handle: %s")
                   [g_win32_error_message errsv] |},
          advance w o [EvCancelPoll; EvReadFile (handle p) (read_length count);
                       EvGetLastError])
  else
    Some ({| bytes_read := to_gssize nread; buffer_after := buffer';
             read_error := None |},
          advance w o [EvCancelPoll; EvReadFile (handle p) (read_length count)]).
Proof.
  intros Hos. unfold g_win32_input_stream_read. unfold_run.
  assert (Hc : (match cancellable with
                | Some true => true | _ => false end) = false)
    by (destruct cancellable as [[|]|]; congruence).
  destruct cancellable as [[|]|]; try discriminate Hc;
    cbn [heap os log]; rewrite Hstream; cbn [heap os log];
    rewrite Hos; cbn [heap os log];
    (destruct (res =? 0); [cbv zeta; destruct (_ || _) |]);
    tidy_log; reflexivity.
Qed.

(** C1: when the [ReadFile] a read issues fails and the last error is
    the end-of-file or the broken-pipe code, the read returns 0 and
    leaves the error location empty. *)
Theorem read_end_of_stream (count res nread : Z) (buffer' : list Byte.byte) (o : OS) :
  ReadFile (handle p) buffer (read_length count) (os w) = (res, buffer', nread, o) ->
  res = 0 ->
  to_gint (GetLastError o) = ERROR_HANDLE_EOF \/
  to_gint (GetLastError o) = ERROR_BROKEN_PIPE ->
  g_win32_input_stream_read stream buffer count cancellable w =
  Some ({| bytes_read := 0; buffer_after := buffer'; read_error := None |},
        advance w o [EvCancelPoll; EvReadFile (handle p) (read_length count);
                     EvGetLastError]).
Proof.
  intros Hos -> Herr. rewrite (read_issues_call _ _ _ _ _ Hos).
  cbv zeta. change (0 =? 0) with true. cbv iota.
  assert (Hend : (to_gint (GetLastError o) =? ERROR_HANDLE_EOF)
                 || (to_gint (GetLastError o) =? ERROR_BROKEN_PIPE) = true).
  { apply orb_true_iff. destruct Herr as [-> | ->]; [left | right];
      apply Z.eqb_refl. }
  now rewrite Hend.
Qed.

(** C7: when the [ReadFile] a read issues fails with any other last
    error, the read returns -1 and sets an I/O error whose code is the
    last error mapped by [g_io_error_from_win32_error] and whose message
    is the (translated) format filled with the platform's description
    of that error, so that the description occurs in it as long as the
    catalogue keeps the format's [%s]. *)
Theorem read_os_failure (count res nread : Z) (buffer' : list Byte.byte) (o : OS) :
  ReadFile (handle p) buffer (read_length count) (os w) = (res, buffer', nread, o) ->
  res = 0 ->
  to_gint (GetLastError o) <> ERROR_HANDLE_EOF ->
  to_gint (GetLastError o) <> ERROR_BROKEN_PIPE ->
  has_string_directive (gettext "Error reading from handle: %s") = true ->
  let errsv := to_gint (GetLastError o) in
  exists e,
    g_win32_input_stream_read stream buffer count cancellable w =
    Some ({| bytes_read := -1; buffer_after := buffer'; read_error := Some e |},
          advance w o [EvCancelPoll; EvReadFile (handle p) (read_length count);
                       EvGetLastError]) /\
    domain e = G_IO_ERROR /\
    code e = g_io_error_from_win32_error errsv /\
    message e = g_strdup_printf (gettext "Error reading from handle: %s")
                  [g_win32_error_message errsv] /\
    embeds (message e) (g_win32_error_message errsv).
Proof.
  intros Hos -> Heof Hpipe Hfmt errsv.
  rewrite (read_issues_call _ _ _ _ _ Hos).
  cbv zeta. change (0 =? 0) with true. cbv iota.
  apply Z.eqb_neq in Heof, Hpipe. rewrite Heof, Hpipe. cbn [orb].
  eexists. split; [reflexivity |]. cbn [domain code message].
  repeat split. now apply g_strdup_printf_embeds.
Qed.

(** C5: the one [ReadFile] of a read is issued for
    [min count G_MAXINT] bytes; a larger request behaves exactly as a
    request for [G_MAXINT] bytes, and when the call succeeds, having
    transferred no more than it was asked for, the read succeeds with
    that many bytes, at most [G_MAXINT].  The read hands back what that
    one call did: the world it leaves is the operating system's next
    state with the poll and the call logged (and [GetLastError] when the
    call failed), the buffer is the one the call left, and the result is
    the call's count on success and the end-of-stream or error result on
    failure. *)
Theorem read_clamps_length (count res nread : Z) (buffer' : list Byte.byte) (o : OS) :
  0 <= count ->
  ReadFile (handle p) buffer (Z.min count G_MAXINT) (os w) = (res, buffer', nread, o) ->
  exists r w',
    g_win32_input_stream_read stream buffer count cancellable w = Some (r, w') /\
    w' = advance w o
           (EvCancelPoll :: EvReadFile (handle p) (Z.min count G_MAXINT)
              :: (if res =? 0 then [EvGetLastError] else [])) /\
    buffer_after r = buffer' /\
    (res <> 0 ->
     r = {| bytes_read := to_gssize nread; buffer_after := buffer';
            read_error := None |}) /\
    (res = 0 ->
     let errsv := to_gint (GetLastError o) in
     r = if (errsv =? ERROR_HANDLE_EOF) || (errsv =? ERROR_BROKEN_PIPE) then
           {| bytes_read := 0; buffer_after := buffer'; read_error := None |}
         else
           {| bytes_read := -1; buffer_after := buffer';
              read_error :=
                g_set_error G_IO_ERROR (g_io_error_from_win32_error errsv)
                  (gettext "Error reading from handle: %s")
                  [g_win32_error_message errsv] |}) /\
    List.filter is_read_call (log w') =
      (List.filter is_read_call (log w)
         ++ [EvReadFile (handle p) (Z.min count G_MAXINT)])%list /\
    g_win32_input_stream_read stream buffer (Z.min count G_MAXINT) cancellable w =
      Some (r, w') /\
    (res <> 0 -> 0 <= nread <= Z.min count G_MAXINT ->
     bytes_read r = nread /\ read_error r = None /\
     0 <= bytes_read r <= G_MAXINT).
Proof.
  intros Hcount Hos. rewrite <- (read_length_min count Hcount) in Hos.
  assert (Hos' := Hos). rewrite <- (read_length_idem count Hcount) in Hos'.
  rewrite (read_issues_call _ _ _ _ _ Hos), (read_issues_call _ _ _ _ _ Hos').
  rewrite (read_length_idem count Hcount), <- (read_length_min count Hcount).
  destruct (Z.eqb_spec res 0) as [-> | Hres].
  - cbv zeta. eexists _, _. split; [reflexivity |].
    split; [reflexivity |].
    split; [now destruct (_ || _) |].
    split; [intros Hne; now contradiction Hne |].
    split; [intros _; reflexivity |].
    split; [| split].
    + unfold advance. cbn [log]. rewrite List.filter_app. reflexivity.
    + reflexivity.
    + intros Hne. now contradiction Hne.
  - eexists _, _. split; [reflexivity |].
    split; [reflexivity |].
    split; [reflexivity |].
    split; [intros _; reflexivity |].
    split; [intros Heq; now contradiction Hres |].
    split; [| split].
    + unfold advance. cbn [log]. rewrite List.filter_app. reflexivity.
    + reflexivity.
    + intros _ Hn. cbn [bytes_read read_error].
      rewrite (read_length_min count Hcount) in Hn.
      assert (Hfit : to_gssize nread = nread).
      { apply to_signed_small; [apply gsize_bits_min |].
        unfold G_MAXINT in *. lia. }
      rewrite Hfit. unfold G_MAXINT in *. repeat split; lia.
Qed.
End Read.

(** C2: a read on a token that is already cancelled returns -1 with the
    Cancelled error after the poll alone: the operating system is not
    called (its state and the log show no call), whatever the stream. *)
Theorem read_cancelled `{Win32} (w : World) (stream : Z) (buffer : list Byte.byte)
    (count : Z) :
  exists e w',
    g_win32_input_stream_read stream buffer count (Some true) w =
      Some ({| bytes_read := -1; buffer_after := buffer; read_error := Some e |}, w') /\
    domain e = G_IO_ERROR /\ code e = G_IO_ERROR_CANCELLED /\
    w' = advance w (os w) [EvCancelPoll] /\
    count_events is_os_call (log w') = count_events is_os_call (log w).
Proof.
  eexists _, _. split; [reflexivity |]. cbn [domain code].
  repeat split. unfold count_events. cbn [log].
  rewrite List.filter_app. cbn. now rewrite app_nil_r.
Qed.

(** ** Accessors *)

Section Accessors.
Context `{Win32}.

Lemma get_handle_live (w : World) (stream : Z) (p : GWin32InputStreamPrivate) :
  heap w !! stream = Some p ->
  g_win32_input_stream_get_handle stream w = Some (handle p, w).
Proof.
  intros Hs. unfold g_win32_input_stream_get_handle. unfold_run.
  rewrite bool_decide_eq_true_2 by eauto. cbn [negb]. now rewrite Hs.
Qed.

Lemma get_close_handle_live (w : World) (stream : Z) (p : GWin32InputStreamPrivate) :
  heap w !! stream = Some p ->
  g_win32_input_stream_get_close_handle stream w = Some (close_handle p, w).
Proof.
  intros Hs. unfold g_win32_input_stream_get_close_handle. unfold_run.
  rewrite bool_decide_eq_true_2 by eauto. cbn [negb]. now rewrite Hs.
Qed.
End Accessors.

(** ** Closing *)

Section Close.
Context `{Win32}.

Variables (w : World) (stream : Z) (p : GWin32InputStreamPrivate).
Variable cancellable : GCancellable.
Hypothesis Hstream : heap w !! stream = Some p.

(** A close branches on the flag and on the result of [CloseHandle]
    exactly as the source does. *)
Lemma close_runs (res : Z) (o : OS) :
  CloseHandle (handle p) (os w) = (res, o) ->
  g_win32_input_stream_close stream cancellable w =
  if close_handle p =? 0 then
    Some ({| closed := TRUE; close_error := None |}, w)
  else if res =? 0 then
    let errsv := to_gint (GetLastError o) in
    Some ({| closed := FALSE;
             close_error :=
               g_set_error G_IO_ERROR (g_io_error_from_win32_error errsv)
                 (gettext "Error closing handle: %s")
                 [g_win32_error_message errsv] |},
          advance w o [EvCloseHandle (handle p); EvGetLastError])
  else
    Some ({| closed := TRUE; close_error := None |},
          advance w o [EvCloseHandle (handle p)]).
Proof.
  intros Hos. unfold g_win32_input_stream_close. unfold_run.
  rewrite Hstream. cbn [heap os log].
  destruct (close_handle p =? 0); [reflexivity |].
  rewrite Hos. cbn [heap os log].
  destruct (res =? 0); tidy_log; reflexivity.
Qed.

(** C3: closing a stream whose flag is false returns [TRUE] and leaves
    the world as it was, log included: no handle is released and the
    token is not polled, whatever the token is. *)
Theorem close_not_owned :
  close_handle p = FALSE ->
  g_win32_input_stream_close stream cancellable w =
    Some ({| closed := TRUE; close_error := None |}, w) /\
  forall other : GCancellable,
    g_win32_input_stream_close stream other w =
    g_win32_input_stream_close stream cancellable w.
Proof.
  intros Hflag. unfold g_win32_input_stream_close. unfold_run.
  rewrite Hstream, Hflag. split; reflexivity.
Qed.

(** C4: closing a stream whose flag is true issues [CloseHandle] on its
    handle once: the world it leaves is the operating system's state
    after that call, with the call logged (and [GetLastError] when it
    failed) and the heap untouched.  If the call succeeds the close
    returns [TRUE]; if it fails the close returns [FALSE] and sets an I/O
    error whose code is the last error mapped by
    [g_io_error_from_win32_error] and whose message is the (translated)
    format filled with the platform's description of it. *)
Theorem close_owned (res : Z) (o : OS) :
  close_handle p <> FALSE ->
  CloseHandle (handle p) (os w) = (res, o) ->
  exists r w',
    g_win32_input_stream_close stream cancellable w = Some (r, w') /\
    w' = advance w o
           (EvCloseHandle (handle p)
              :: (if res =? 0 then [EvGetLastError] else [])) /\
    List.filter is_release_call (log w') =
      (List.filter is_release_call (log w) ++ [EvCloseHandle (handle p)])%list /\
    count_events is_release_call (log w') =
      S (count_events is_release_call (log w)) /\
    (res <> 0 -> r = {| closed := TRUE; close_error := None |}) /\
    (res = 0 ->
     let errsv := to_gint (GetLastError o) in
     exists e,
       r = {| closed := FALSE; close_error := Some e |} /\
       domain e = G_IO_ERROR /\
       code e = g_io_error_from_win32_error errsv /\
       message e = g_strdup_printf (gettext "Error closing handle: %s")
                     [g_win32_error_message errsv] /\
       (has_string_directive (gettext "Error closing handle: %s") = true ->
        embeds (message e) (g_win32_error_message errsv))).
Proof.
  intros Hflag Hos. rewrite (close_runs _ _ Hos).
  apply Z.eqb_neq in Hflag. unfold FALSE in Hflag. rewrite Hflag.
  assert (Hone : forall tail : list event,
             List.filter is_release_call tail = [] ->
             List.filter is_release_call
               (log (advance w o (EvCloseHandle (handle p) :: tail))) =
             (List.filter is_release_call (log w)
                ++ [EvCloseHandle (handle p)])%list).
  { intros tail Htail. unfold advance. cbn [log].
    rewrite List.filter_app. cbn [List.filter is_release_call].
    now rewrite Htail. }
  destruct (Z.eqb_spec res 0) as [-> | Hres]; cbv zeta.
  - eexists _, _. split; [reflexivity |]. split; [reflexivity |].
    split; [now apply Hone |]. split.
    + unfold count_events. rewrite Hone by reflexivity.
      rewrite length_app. cbn. lia.
    + split; [intros Hne; now contradiction Hne |].
      intros _. eexists. split; [reflexivity |]. cbn [domain code message].
      repeat split. intros Hfmt. now apply g_strdup_printf_embeds.
  - eexists _, _. split; [reflexivity |]. split; [reflexivity |].
    split; [now apply Hone |]. split.
    + unfold count_events. rewrite Hone by reflexivity.
      rewrite length_app. cbn. lia.
    + split; [reflexivity | intros Heq; now contradiction Hres].
Qed.

(** C10: a close returns, and whichever way it went the heap is what it
    was: the accessors report the same handle and the same flag after
    the close as before it. *)
Theorem close_keeps_fields :
  exists r w',
    g_win32_input_stream_close stream cancellable w = Some (r, w') /\
    heap w' = heap w /\
    g_win32_input_stream_get_handle stream w = Some (handle p, w) /\
    g_win32_input_stream_get_handle stream w' = Some (handle p, w') /\
    g_win32_input_stream_get_close_handle stream w = Some (close_handle p, w) /\
    g_win32_input_stream_get_close_handle stream w' = Some (close_handle p, w').
Proof.
  destruct (CloseHandle (handle p) (os w)) as [res o] eqn:Hos.
  rewrite (close_runs _ _ Hos).
  assert (Hget := get_handle_live w stream p Hstream).
  assert (Hflag := get_close_handle_live w stream p Hstream).
  destruct (close_handle p =? 0); [| destruct (res =? 0); cbv zeta];
    eexists _, _; (split; [reflexivity |]);
    (split; [reflexivity |]);
    repeat split; try assumption;
    first [ now apply get_handle_live | now apply get_close_handle_live ].
Qed.
End Close.

(** ** Construction *)

Section New.
Context `{Win32}.

Lemma new_address_fresh (w : World) :
  let stream := fresh ({[NULL]} ∪ dom (heap w)) in
  stream <> NULL /\ heap w !! stream = None.
Proof.
  intros stream.
  assert (Hfresh : stream ∉ ({[NULL]} ∪ dom (heap w) : gset Z))
    by apply is_fresh.
  split.
  - intros Heq. apply Hfresh. rewrite Heq. set_solver.
  - apply not_elem_of_dom. set_solver.
Qed.

(** C6: with a null handle the constructor warns that its precondition
    failed, returns the null pointer and allocates nothing; with any
    other handle it returns a new, non-null instance that holds the
    given handle and the given flag, which the accessors report. *)
Theorem new_checks_handle (w : World) (handle' : Z) (flag : bool) :
  (forall close_handle' : Z,
      g_win32_input_stream_new NULL close_handle' w =
      Some (NULL, advance w (os w) [EvCritical "handle != NULL"])) /\
  (handle' <> NULL ->
   exists stream w',
     g_win32_input_stream_new handle' (c_bool flag) w = Some (stream, w') /\
     stream <> NULL /\
     heap w !! stream = None /\
     heap w' = <[stream := {| handle := handle'; close_handle := c_bool flag |}]>
                 (heap w) /\
     os w' = os w /\ log w' = log w /\
     g_win32_input_stream_get_handle stream w' = Some (handle', w') /\
     g_win32_input_stream_get_close_handle stream w' = Some (c_bool flag, w')).
Proof.
  split; [reflexivity |].
  intros Hnonnull. unfold g_win32_input_stream_new.
  rewrite bool_decide_eq_false_2 by assumption.
  destruct (new_address_fresh w) as [Hnn Hnew].
  unfold g_object_new, set_properties, g_win32_input_stream_set_property.
  cbn [property_by_name String.eqb Ascii.eqb Bool.eqb].
  set (stream := fresh ({[NULL]} ∪ dom (heap w))) in *.
  unfold_run.
  repeat (first [rewrite lookup_insert_eq | rewrite insert_insert_eq];
          cbn [heap os log handle close_handle]).
  cbn [g_value_get_pointer g_value_get_boolean].
  eexists _, _. split; [reflexivity |]. cbn [heap os log].
  repeat split; try assumption.
  - apply get_handle_live with
      (p := {| handle := handle'; close_handle := c_bool flag |}).
    cbn [heap]. apply lookup_insert_eq.
  - apply get_close_handle_live with
      (p := {| handle := handle'; close_handle := c_bool flag |}).
    cbn [heap]. apply lookup_insert_eq.
Qed.
End New.

(** ** The ownership flag *)

Lemma normalised_canonical (b : Z) :
  (normalised b = TRUE \/ normalised b = FALSE) /\
  (normalised b = TRUE <-> b <> 0).
Proof.
  unfold normalised, FALSE, TRUE. destruct (Z.eqb_spec b 0) as [-> | Hb]; cbn.
  - split; [now right |]. split; [discriminate | intros Hne; now contradiction Hne].
  - split; [now left |]. split; [now intros _ | reflexivity].
Qed.

Section Flag.
Context `{Win32}.

Variables (w : World) (stream : Z) (p : GWin32InputStreamPrivate).
Hypothesis Hstream : heap w !! stream = Some p.

Lemma set_close_handle_runs (b : Z) :
  g_win32_input_stream_set_close_handle stream b w =
  Some (tt, if close_handle p =? normalised b then w
            else flag_changed w stream p (normalised b)).
Proof.
  unfold g_win32_input_stream_set_close_handle. unfold_run.
  rewrite bool_decide_eq_true_2 by eauto. cbn [negb].
  rewrite Hstream. cbn [heap os log]. fold (normalised b).
  destruct (close_handle p =? normalised b); cbn [negb]; [reflexivity |].
  rewrite Hstream. reflexivity.
Qed.

Lemma set_close_handle_stores (b : Z) :
  heap (if close_handle p =? normalised b then w
        else flag_changed w stream p (normalised b)) !! stream =
  Some {| handle := handle p; close_handle := normalised b |}.
Proof.
  destruct (Z.eqb_spec (close_handle p) (normalised b)) as [Heq | Hne].
  - rewrite Hstream, <- Heq. now destruct p.
  - cbn [flag_changed heap]. apply lookup_insert_eq.
Qed.
End Flag.

Section FlagClaims.
Context `{Win32}.

Variables (w : World) (stream : Z) (p : GWin32InputStreamPrivate).
Hypothesis Hstream : heap w !! stream = Some p.

(** C8, as amended: a call stores the truth value of its argument and
    appends one notification to the log when that differs from the
    stored flag, none when it is equal.  Setting [TRUE] twice therefore
    notifies once when the flag was not [TRUE] before, and not at all
    when it was. *)
Theorem set_close_handle_notifies (b : Z) :
  (exists w',
      g_win32_input_stream_set_close_handle stream b w = Some (tt, w') /\
      g_win32_input_stream_get_close_handle stream w' = Some (normalised b, w') /\
      g_win32_input_stream_get_handle stream w' = Some (handle p, w') /\
      os w' = os w /\
      log w' = (log w ++ (if close_handle p =? normalised b then []
                          else [EvNotify stream "close-handle"]))%list) /\
  (exists w'',
      (g_win32_input_stream_set_close_handle stream TRUE;;
       g_win32_input_stream_set_close_handle stream TRUE) w = Some (tt, w'') /\
      log w'' = (log w ++ (if close_handle p =? TRUE then []
                           else [EvNotify stream "close-handle"]))%list /\
      count_events is_notification (log w'') =
        (count_events is_notification (log w)
         + (if (close_handle p =? TRUE)%Z then 0 else 1))%nat).
Proof.
  split.
  - eexists. split; [apply (set_close_handle_runs w stream p Hstream) |].
    assert (Hst := set_close_handle_stores w stream p Hstream b).
    split; [apply (get_close_handle_live _ _ _ Hst) |].
    split; [apply (get_handle_live _ _ _ Hst) |].
    destruct (close_handle p =? normalised b); cbn [flag_changed os log].
    + split; [reflexivity | now rewrite app_nil_r].
    + split; reflexivity.
  - assert (Hst := set_close_handle_stores w stream p Hstream TRUE).
    change (normalised TRUE) with TRUE in Hst.
    unfold mbind at 1, run_bind.
    rewrite (set_close_handle_runs w stream p Hstream).
    change (normalised TRUE) with TRUE.
    rewrite (set_close_handle_runs _ stream _ Hst).
    change (normalised TRUE) with TRUE. cbn [close_handle].
    rewrite Z.eqb_refl.
    eexists. split; [reflexivity |].
    unfold count_events.
    destruct (close_handle p =? TRUE); cbn [flag_changed log].
    + rewrite app_nil_r. split; [reflexivity | lia].
    + split; [reflexivity |]. rewrite List.filter_app, length_app. reflexivity.
Qed.

(** C9: whatever integer is passed, the flag read back after the call is
    exactly [TRUE] or exactly [FALSE], [TRUE] just when the argument was
    nonzero; and after a call with a nonzero argument, a call with any
    other nonzero argument finds the flag equal, changes nothing and
    notifies nobody. *)
Theorem set_close_handle_canonical (b : Z) :
  exists w' v,
    g_win32_input_stream_set_close_handle stream b w = Some (tt, w') /\
    g_win32_input_stream_get_close_handle stream w' = Some (v, w') /\
    (v = TRUE \/ v = FALSE) /\
    (v = TRUE <-> b <> 0) /\
    (forall b' : Z, b <> 0 -> b' <> 0 ->
       g_win32_input_stream_set_close_handle stream b' w' = Some (tt, w')).
Proof.
  assert (Hst := set_close_handle_stores w stream p Hstream b).
  eexists _, (normalised b).
  split; [apply (set_close_handle_runs w stream p Hstream) |].
  split; [apply (get_close_handle_live _ _ _ Hst) |].
  destruct (normalised_canonical b) as [Hcanon Hiff].
  split; [assumption |]. split; [assumption |].
  intros b' Hb Hb'. rewrite (set_close_handle_runs _ stream _ Hst).
  cbn [close_handle].
  destruct (normalised_canonical b') as [_ Hiff'].
  apply Hiff in Hb. apply Hiff' in Hb'. rewrite Hb, Hb'.
  now rewrite Z.eqb_refl.
Qed.
End FlagClaims.

(** ** The theorems on the simulated platform *)

Section Simulation.
Import Mock.
Local Existing Instance platform.

(** Reading the pipe two bytes at a time, then closing it: 2 bytes, 1 byte,
    end of stream, and one release of the handle. *)
Example pipe_scenario :
  (stream ← g_win32_input_stream_new 7 TRUE;
   r1 ← g_win32_input_stream_read stream [Byte.x00; Byte.x00] 2 None;
   r2 ← g_win32_input_stream_read stream [Byte.x00; Byte.x00] 2 None;
   r3 ← g_win32_input_stream_read stream [Byte.x00; Byte.x00] 2 None;
   c ← g_win32_input_stream_close stream None;
   mret (bytes_read r1, buffer_after r1, bytes_read r2, buffer_after r2,
         bytes_read r3, read_error r3, c)) (boot (pipe 109)) =
  Some ((2, [Byte.x01; Byte.x02], 1, [Byte.x03; Byte.x00], 0, None,
         {| closed := TRUE; close_error := None |}),
        @Build_World platform {[ 1 := wrapped TRUE ]} (fail_with 109 released)
          [EvCancelPoll; EvReadFile 7 2; EvCancelPoll; EvReadFile 7 2;
           EvCancelPoll; EvReadFile 7 2; EvGetLastError; EvCloseHandle 7]).
Proof. vm_compute. reflexivity. Qed.

Lemma read_end_of_stream_witness :
  g_win32_input_stream_read 1 [Byte.x00] 1 None (world_with TRUE (drained 109)) =
  Some ({| bytes_read := 0; buffer_after := [Byte.x00]; read_error := None |},
        advance (world_with TRUE (drained 109)) (fail_with 109 (drained 109))
          [EvCancelPoll; EvReadFile 7 1; EvGetLastError]).
Proof.
  apply read_end_of_stream with (p := wrapped TRUE) (res := 0) (nread := 0);
    [reflexivity | discriminate | reflexivity | reflexivity | right; reflexivity].
Defined.

Lemma read_os_failure_witness :
  exists e,
    g_win32_input_stream_read 1 [Byte.x00] 1 None (world_with TRUE (drained 5)) =
    Some ({| bytes_read := -1; buffer_after := [Byte.x00]; read_error := Some e |},
          advance (world_with TRUE (drained 5)) (fail_with 5 (drained 5))
            [EvCancelPoll; EvReadFile 7 1; EvGetLastError]) /\
    domain e = G_IO_ERROR /\
    code e = 14 /\
    message e = "Error reading from handle: Access is denied." /\
    embeds (message e) "Access is denied.".
Proof.
  refine (read_os_failure (world_with TRUE (drained 5)) 1 (wrapped TRUE)
            [Byte.x00] None _ _ 1 0 0 [Byte.x00] (fail_with 5 (drained 5))
            _ _ _ _ _);
    [reflexivity | discriminate | reflexivity | reflexivity
    | discriminate | discriminate | reflexivity].
Defined.

Lemma read_clamps_length_witness :
  exists r w',
    g_win32_input_stream_read 1 [] 1099511627776 None
      (world_with TRUE (pipe 109)) = Some (r, w') /\
    w' = advance (world_with TRUE (pipe 109)) (drained 109)
           [EvCancelPoll; EvReadFile 7 2147483647] /\
    r = {| bytes_read := 3; buffer_after := [Byte.x01; Byte.x02; Byte.x03];
           read_error := None |} /\
    g_win32_input_stream_read 1 [] 2147483647 None
      (world_with TRUE (pipe 109)) = Some (r, w').
Proof.
  destruct (read_clamps_length (world_with TRUE (pipe 109)) 1 (wrapped TRUE)
              [] None eq_refl ltac:(discriminate) 1099511627776 1 3
              [Byte.x01; Byte.x02; Byte.x03] (drained 109))
    as (r & w' & Hrun & Hworld & _ & Hok & _ & _ & Hsame & _);
    [lia | reflexivity |].
  exists r, w'. split; [exact Hrun |]. split; [exact Hworld |].
  split; [apply Hok; discriminate | exact Hsame].
Defined.

Lemma close_not_owned_witness :
  g_win32_input_stream_close 1 (Some true) (world_with FALSE (pipe 109)) =
    Some ({| closed := TRUE; close_error := None |}, world_with FALSE (pipe 109)) /\
  forall other : GCancellable,
    g_win32_input_stream_close 1 other (world_with FALSE (pipe 109)) =
    g_win32_input_stream_close 1 (Some true) (world_with FALSE (pipe 109)).
Proof.
  refine (close_not_owned (world_with FALSE (pipe 109)) 1 (wrapped FALSE)
            (Some true) _ _); reflexivity.
Defined.

Lemma close_owned_witness :
  exists e w',
    g_win32_input_stream_close 1 None (world_with TRUE released) =
      Some ({| closed := FALSE; close_error := Some e |}, w') /\
    w' = advance (world_with TRUE released) (fail_with 6 released)
           [EvCloseHandle 7; EvGetLastError] /\
    count_events is_release_call (log w') = 1%nat /\
    code e = 0 /\
    embeds (message e) "The handle is invalid.".
Proof.
  destruct (close_owned (world_with TRUE released) 1 (wrapped TRUE) None
              eq_refl 0 (fail_with 6 released))
    as (r & w' & Hrun & Hworld & _ & Hcount & _ & Hfail);
    [discriminate | reflexivity |].
  destruct (Hfail eq_refl) as (e & -> & _ & Hcode & _ & Hmsg).
  exists e, w'. split; [exact Hrun |]. split; [exact Hworld |].
  split; [exact Hcount |].
  split; [exact Hcode | exact (Hmsg eq_refl)].
Defined.

Lemma close_keeps_fields_witness :
  exists r w',
    g_win32_input_stream_close 1 None (world_with TRUE (pipe 109)) = Some (r, w') /\
    heap w' = heap (world_with TRUE (pipe 109)) /\
    g_win32_input_stream_get_handle 1 (world_with TRUE (pipe 109)) =
      Some (7, world_with TRUE (pipe 109)) /\
    g_win32_input_stream_get_handle 1 w' = Some (7, w') /\
    g_win32_input_stream_get_close_handle 1 (world_with TRUE (pipe 109)) =
      Some (TRUE, world_with TRUE (pipe 109)) /\
    g_win32_input_stream_get_close_handle 1 w' = Some (TRUE, w').
Proof.
  refine (close_keeps_fields (world_with TRUE (pipe 109)) 1 (wrapped TRUE)
            None _). reflexivity.
Defined.

Lemma new_checks_handle_witness :
  exists stream w',
    g_win32_input_stream_new 7 TRUE (boot (pipe 109)) = Some (stream, w') /\
    stream <> NULL /\
    g_win32_input_stream_get_handle stream w' = Some (7, w') /\
    g_win32_input_stream_get_close_handle stream w' = Some (TRUE, w').
Proof.
  destruct (new_checks_handle (boot (pipe 109)) 7 true) as [_ Hnew].
  destruct Hnew as (stream & w' & Hrun & Hnn & _ & _ & _ & _ & Hh & Hf);
    [discriminate |].
  exists stream, w'. repeat split; assumption.
Defined.

Lemma set_close_handle_notifies_witness :
  exists w'',
    (g_win32_input_stream_set_close_handle 1 TRUE;;
     g_win32_input_stream_set_close_handle 1 TRUE)
      (world_with FALSE (pipe 109)) = Some (tt, w'') /\
    log w'' = [EvNotify 1 "close-handle"].
Proof.
  destruct (set_close_handle_notifies (world_with FALSE (pipe 109)) 1
              (wrapped FALSE) eq_refl TRUE)
    as [_ (w'' & Hrun & Hlog & _)].
  exists w''. split; assumption.
Defined.

Lemma set_close_handle_canonical_witness :
  exists w' v,
    g_win32_input_stream_set_close_handle 1 5 (world_with FALSE (pipe 109)) =
      Some (tt, w') /\
    g_win32_input_stream_get_close_handle 1 w' = Some (v, w') /\
    (v = TRUE \/ v = FALSE) /\
    (v = TRUE <-> 5 <> 0) /\
    (forall b' : Z, 5 <> 0 -> b' <> 0 ->
       g_win32_input_stream_set_close_handle 1 b' w' = Some (tt, w')).
Proof.
  refine (set_close_handle_canonical (world_with FALSE (pipe 109)) 1
            (wrapped FALSE) _ 5). reflexivity.
Defined.

(** C8, as stated, fails on a stream that already owns its handle: the
    constructor called with [TRUE] yields such a stream, and setting
    [TRUE] twice on it appends no notification at all, not one. *)
Lemma set_true_twice_on_owning_stream :
  g_win32_input_stream_new 7 TRUE (boot (pipe 109)) =
    Some (1, world_with TRUE (pipe 109)) /\
  (g_win32_input_stream_set_close_handle 1 TRUE;;
   g_win32_input_stream_set_close_handle 1 TRUE) (world_with TRUE (pipe 109)) =
    Some (tt, world_with TRUE (pipe 109)) /\
  count_events is_notification (log (world_with TRUE (pipe 109))) = 0%nat /\
  ~ (forall (w : World) (stream : Z),
       is_Some (heap w !! stream) ->
       exists w'',
         (g_win32_input_stream_set_close_handle stream TRUE;;
          g_win32_input_stream_set_close_handle stream TRUE) w = Some (tt, w'') /\
         count_events is_notification (log w'') =
           S (count_events is_notification (log w))).
Proof.
  split; [vm_compute; reflexivity |].
  assert (Hrun : (g_win32_input_stream_set_close_handle 1 TRUE;;
                  g_win32_input_stream_set_close_handle 1 TRUE)
                   (world_with TRUE (pipe 109)) =
                 Some (tt, world_with TRUE (pipe 109))) by reflexivity.
  split; [exact Hrun |]. split; [reflexivity |].
  intros Hclaim.
  destruct (Hclaim (world_with TRUE (pipe 109)) 1) as (w'' & Hrun' & Hcount).
  - exists (wrapped TRUE). reflexivity.
  - rewrite Hrun in Hrun'. injection Hrun' as <-. discriminate Hcount.
Qed.
End Simulation.


(** * Further properties of the operations *)

(** ** Reading, beyond the single outcomes *)

Lemma read_cancelled_runs `{Win32} (w : World) (stream : Z)
    (buffer : list Byte.byte) (count : Z) :
  g_win32_input_stream_read stream buffer count (Some true) w =
  Some ({| bytes_read := -1; buffer_after := buffer;
           read_error := Some {| domain := G_IO_ERROR;
                                 code := G_IO_ERROR_CANCELLED;
                                 message := gettext "Operation was cancelled" |} |},
        advance w (os w) [EvCancelPoll]).
Proof. reflexivity. Qed.

Lemma token_cases (cancellable : GCancellable) :
  cancellable = Some true \/ cancellable <> Some true.
Proof. destruct cancellable as [[|]|]; [now left | right | right]; discriminate. Qed.

Lemma filter_advance `{Win32} (f : event -> bool) (w : World) (o : OS)
    (es : list event) :
  List.filter f (log (advance w o es)) =
  (List.filter f (log w) ++ List.filter f es)%list.
Proof. unfold advance. cbn [log]. apply List.filter_app. Qed.

Section ReadFurther.
Context `{Win32}.

Variables (w : World) (stream : Z) (p : GWin32InputStreamPrivate).
Variable buffer : list Byte.byte.
Hypothesis Hstream : heap w !! stream = Some p.

(** X1: the error convention of read.  On a live stream, provided a
    successful [ReadFile] reports no more bytes than it was asked for, a
    read returns -1 exactly when it sets an error, and otherwise a count
    between 0 and [min count G_MAXINT]. *)
Theorem read_error_convention (cancellable : GCancellable) (count : Z) :
  0 <= count ->
  (forall res buffer' nread o,
      ReadFile (handle p) buffer (read_length count) (os w) = (res, buffer', nread, o) ->
      res <> 0 -> 0 <= nread <= read_length count) ->
  exists r w',
    g_win32_input_stream_read stream buffer count cancellable w = Some (r, w') /\
    (bytes_read r = -1 <-> read_error r <> None) /\
    -1 <= bytes_read r <= Z.min count G_MAXINT.
Proof.
  intros Hcount Hcontract.
  assert (Hmin : 0 <= Z.min count G_MAXINT) by (unfold G_MAXINT; lia).
  destruct (token_cases cancellable) as [-> | Hlive].
  - rewrite read_cancelled_runs. eexists _, _. split; [reflexivity |].
    cbn [bytes_read read_error]. split; [| lia].
    split; [intros _; discriminate | reflexivity].
  - destruct (ReadFile (handle p) buffer (read_length count) (os w))
      as [[[res buffer'] nread] o] eqn:Hos.
    rewrite (read_issues_call w stream p buffer cancellable Hstream Hlive
               count res nread buffer' o Hos).
    destruct (Z.eqb_spec res 0) as [-> | Hres]; cbv zeta.
    + destruct (_ || _); eexists _, _; (split; [reflexivity |]);
        cbn [bytes_read read_error]; (split; [| lia]).
      * split; [discriminate | intros Hne; now contradiction Hne].
      * split; [intros _; discriminate | reflexivity].
    + specialize (Hcontract res buffer' nread o eq_refl Hres).
      rewrite (read_length_min count Hcount) in Hcontract.
      assert (Hfit : to_gssize nread = nread).
      { apply to_signed_small; [apply gsize_bits_min |].
        unfold G_MAXINT in *. lia. }
      eexists _, _. split; [reflexivity |]. cbn [bytes_read read_error].
      rewrite Hfit. split; [| lia].
      split; [lia | intros Hne; now contradiction Hne].
Qed.

(** X2: what a read leaves alone.  On a live stream a read always
    returns; it changes no stream, releases no handle, notifies nobody,
    and calls [ReadFile] at most once. *)
Theorem read_frame (cancellable : GCancellable) (count : Z) :
  exists r w',
    g_win32_input_stream_read stream buffer count cancellable w = Some (r, w') /\
    heap w' = heap w /\
    List.filter is_release_call (log w') = List.filter is_release_call (log w) /\
    List.filter is_notification (log w') = List.filter is_notification (log w) /\
    (count_events is_read_call (log w') <= S (count_events is_read_call (log w)))%nat.
Proof.
  unfold count_events.
  destruct (token_cases cancellable) as [-> | Hlive].
  - rewrite read_cancelled_runs. eexists _, _. split; [reflexivity |].
    rewrite !filter_advance. cbn. rewrite !app_nil_r. repeat split. lia.
  - destruct (ReadFile (handle p) buffer (read_length count) (os w))
      as [[[res buffer'] nread] o] eqn:Hos.
    rewrite (read_issues_call w stream p buffer cancellable Hstream Hlive
               count res nread buffer' o Hos).
    destruct (res =? 0); cbv zeta; eexists _, _; (split; [reflexivity |]);
      rewrite !filter_advance; cbn; rewrite !app_nil_r, ?length_app; cbn;
      repeat split; lia.
Qed.

(** X3: a successful read hands the operating system's answer through.
    When [ReadFile] succeeds with a count that fits an [int], the read
    returns that count and the buffer as the call left it, sets no error
    and does not consult [GetLastError]; this includes a successful
    transfer of 0 bytes, which returns 0 like the end of the stream. *)
Theorem read_success (cancellable : GCancellable)
    (count res nread : Z) (buffer' : list Byte.byte) (o : OS) :
  cancellable <> Some true ->
  ReadFile (handle p) buffer (read_length count) (os w) = (res, buffer', nread, o) ->
  res <> 0 ->
  0 <= nread <= G_MAXINT ->
  g_win32_input_stream_read stream buffer count cancellable w =
  Some ({| bytes_read := nread; buffer_after := buffer'; read_error := None |},
        advance w o [EvCancelPoll; EvReadFile (handle p) (read_length count)]).
Proof.
  intros Hlive Hos Hres Hn.
  rewrite (read_issues_call w stream p buffer cancellable Hstream Hlive
             count res nread buffer' o Hos).
  apply Z.eqb_neq in Hres. rewrite Hres.
  assert (Hfit : to_gssize nread = nread)
    by (apply to_signed_small; [apply gsize_bits_min | assumption]).
  now rewrite Hfit.
Qed.
End ReadFurther.

(** ** Closing, beyond the single outcomes *)

Section CloseFurther.
Context `{Win32}.

Variables (w : World) (stream : Z) (p : GWin32InputStreamPrivate).
Hypothesis Hstream : heap w !! stream = Some p.

(** The world a close leaves: same heap, hence the same stream. *)
Lemma close_returns (cancellable : GCancellable) :
  exists r o es,
    g_win32_input_stream_close stream cancellable w = Some (r, advance w o es) /\
    List.filter is_release_call es =
      (if close_handle p =? 0 then [] else [EvCloseHandle (handle p)]) /\
    List.filter is_cancel_poll es = [] /\
    List.filter is_read_call es = [] /\
    (closed r = FALSE <-> close_error r <> None) /\
    (closed r = TRUE \/ closed r = FALSE).
Proof.
  destruct (CloseHandle (handle p) (os w)) as [res o] eqn:Hos.
  rewrite (close_runs w stream p cancellable Hstream res o Hos).
  destruct (close_handle p =? 0).
  - exists {| closed := TRUE; close_error := None |}, (os w), [].
    split; [| repeat split; try discriminate; auto].
    + unfold advance. rewrite app_nil_r. now destruct w.
    + intros Hne. now contradiction Hne.
  - destruct (res =? 0); cbv zeta; eexists _, o, _;
      (split; [reflexivity |]); cbn; repeat split; try discriminate; auto.
    intros Hne. now contradiction Hne.
Qed.

(** X4: a close never consults the cancellation token, whether or not it
    owns the handle: it returns the same result and world for every
    token, and adds neither a poll nor a read to the log. *)
Theorem close_ignores_token (cancellable : GCancellable) :
  exists r w',
    g_win32_input_stream_close stream cancellable w = Some (r, w') /\
    (forall other : GCancellable,
        g_win32_input_stream_close stream other w = Some (r, w')) /\
    List.filter is_cancel_poll (log w') = List.filter is_cancel_poll (log w) /\
    List.filter is_read_call (log w') = List.filter is_read_call (log w).
Proof.
  destruct (close_returns cancellable) as (r & o & es & Hrun & _ & Hpoll & Hread & _).
  exists r, (advance w o es). split; [exact Hrun |].
  split; [intros other; exact Hrun |].
  rewrite !filter_advance, Hpoll, Hread, !app_nil_r. split; reflexivity.
Qed.

(** X5: the error convention of close.  A close returns [TRUE] or
    [FALSE], and [FALSE] exactly when it sets an error. *)
Theorem close_error_convention (cancellable : GCancellable) :
  exists r w',
    g_win32_input_stream_close stream cancellable w = Some (r, w') /\
    (closed r = TRUE \/ closed r = FALSE) /\
    (closed r = FALSE <-> close_error r <> None).
Proof.
  destruct (close_returns cancellable) as (r & o & es & Hrun & _ & _ & _ & Hiff & Hval).
  exists r, (advance w o es). repeat split; try assumption; apply Hiff.
Qed.
End CloseFurther.

Section CloseCompose.
Context `{Win32}.

Variables (w : World) (stream : Z) (p : GWin32InputStreamPrivate).
Hypothesis Hstream : heap w !! stream = Some p.

(** X6: close does not guard against being called twice.  On a stream
    that owns its handle, two closes in a row call [CloseHandle] on the
    same handle twice. *)
Theorem close_twice_releases_twice (c1 c2 : GCancellable) :
  close_handle p <> 0 ->
  exists r1 r2 w',
    (r1 ← g_win32_input_stream_close stream c1;
     r2 ← g_win32_input_stream_close stream c2;
     mret (r1, r2)) w = Some ((r1, r2), w') /\
    heap w' = heap w /\
    List.filter is_release_call (log w') =
      (List.filter is_release_call (log w)
         ++ [EvCloseHandle (handle p); EvCloseHandle (handle p)])%list.
Proof.
  intros Hflag. apply Z.eqb_neq in Hflag.
  destruct (close_returns w stream p Hstream c1)
    as (r1 & o1 & es1 & Hrun1 & Hrel1 & _).
  assert (Hstream1 : heap (advance w o1 es1) !! stream = Some p) by exact Hstream.
  destruct (close_returns (advance w o1 es1) stream p Hstream1 c2)
    as (r2 & o2 & es2 & Hrun2 & Hrel2 & _).
  rewrite Hflag in Hrel1, Hrel2.
  exists r1, r2, (advance (advance w o1 es1) o2 es2).
  unfold mbind, run_bind. rewrite Hrun1, Hrun2.
  split; [reflexivity |]. split; [reflexivity |].
  rewrite !filter_advance, Hrel1, Hrel2, <- app_assoc. reflexivity.
Qed.

(** X7: close records nothing in the stream.  After a close, whatever
    its outcome, a read on a live token still calls [ReadFile] on the
    stream's handle. *)
Theorem read_after_close (c1 c2 : GCancellable) (buffer : list Byte.byte)
    (count : Z) :
  c2 <> Some true ->
  exists r1 r2 w',
    (r1 ← g_win32_input_stream_close stream c1;
     r2 ← g_win32_input_stream_read stream buffer count c2;
     mret (r1, r2)) w = Some ((r1, r2), w') /\
    List.filter is_read_call (log w') =
      (List.filter is_read_call (log w)
         ++ [EvReadFile (handle p) (read_length count)])%list.
Proof.
  intros Hlive.
  destruct (close_returns w stream p Hstream c1)
    as (r1 & o1 & es1 & Hrun1 & _ & _ & Hread1 & _).
  assert (Hstream1 : heap (advance w o1 es1) !! stream = Some p) by exact Hstream.
  destruct (ReadFile (handle p) buffer (read_length count) (os (advance w o1 es1)))
    as [[[res buffer'] nread] o2] eqn:Hos.
  assert (Hrun2 := read_issues_call (advance w o1 es1) stream p buffer c2
                     Hstream1 Hlive count res nread buffer' o2 Hos).
  unfold mbind, run_bind. rewrite Hrun1, Hrun2.
  destruct (res =? 0); cbv zeta; eexists _, _, _; (split; [reflexivity |]);
    rewrite !filter_advance, Hread1, app_nil_r; reflexivity.
Qed.
End CloseCompose.

(** ** The flag and the accessors, further *)

Lemma normalised_zero (b : Z) : (normalised b =? 0) = (b =? 0).
Proof.
  unfold normalised, FALSE. now destruct (Z.eqb_spec b 0).
Qed.

Lemma normalised_idem (b : Z) : normalised (normalised b) = normalised b.
Proof.
  unfold normalised, FALSE. now destruct (Z.eqb_spec b 0).
Qed.

Section FlagFurther.
Context `{Win32}.

Variables (w : World) (stream : Z) (p : GWin32InputStreamPrivate).
Hypothesis Hstream : heap w !! stream = Some p.

Lemma set_close_handle_log (f : event -> bool) (b : Z) :
  (forall object property, f (EvNotify object property) = false) ->
  List.filter f (log (if close_handle p =? normalised b then w
                      else flag_changed w stream p (normalised b))) =
  List.filter f (log w).
Proof.
  intros Hf. destruct (close_handle p =? normalised b); [reflexivity |].
  cbn [flag_changed log]. rewrite List.filter_app. cbn [List.filter].
  rewrite Hf. apply app_nil_r.
Qed.

(** X8: the flag decides what close does.  Whatever the flag was before,
    after [set_close_handle b] a close calls [CloseHandle] on the handle
    once if [b] is nonzero and not at all if [b] is zero. *)
Theorem set_close_handle_governs_close (b : Z) (cancellable : GCancellable) :
  exists r w',
    (g_win32_input_stream_set_close_handle stream b;;
     g_win32_input_stream_close stream cancellable) w = Some (r, w') /\
    List.filter is_release_call (log w') =
      (List.filter is_release_call (log w)
         ++ (if b =? 0 then [] else [EvCloseHandle (handle p)]))%list.
Proof.
  assert (Hst := set_close_handle_stores w stream p Hstream b).
  destruct (close_returns _ stream _ Hst cancellable)
    as (r & o & es & Hrun & Hrel & _).
  cbn [handle close_handle] in Hrel. rewrite normalised_zero in Hrel.
  eexists r, _. unfold mbind, run_bind.
  rewrite (set_close_handle_runs w stream p Hstream b), Hrun.
  split; [reflexivity |].
  rewrite filter_advance, Hrel, set_close_handle_log by reflexivity.
  reflexivity.
Qed.

(** X9: the last call wins and repeating a call changes nothing.  After
    [set_close_handle b1] then [set_close_handle b2] the flag is the truth
    value of [b2] and the handle is the old one; two calls with the same
    argument leave the world one call leaves. *)
Theorem set_close_handle_last_wins (b1 b2 : Z) :
  (exists w',
      (g_win32_input_stream_set_close_handle stream b1;;
       g_win32_input_stream_set_close_handle stream b2) w = Some (tt, w') /\
      g_win32_input_stream_get_close_handle stream w' = Some (normalised b2, w') /\
      g_win32_input_stream_get_handle stream w' = Some (handle p, w')) /\
  (g_win32_input_stream_set_close_handle stream b1;;
   g_win32_input_stream_set_close_handle stream b1) w =
  g_win32_input_stream_set_close_handle stream b1 w.
Proof.
  assert (Hst := set_close_handle_stores w stream p Hstream b1).
  split.
  - assert (Hst2 := set_close_handle_stores _ stream _ Hst b2).
    eexists. unfold mbind, run_bind.
    rewrite (set_close_handle_runs w stream p Hstream b1).
    split; [apply (set_close_handle_runs _ stream _ Hst) |].
    split; [apply (get_close_handle_live _ _ _ Hst2)
           | apply (get_handle_live _ _ _ Hst2)].
  - unfold mbind, run_bind.
    rewrite (set_close_handle_runs w stream p Hstream b1).
    rewrite (set_close_handle_runs _ stream _ Hst b1).
    cbn [close_handle]. now rewrite Z.eqb_refl.
Qed.

(** X10: a call touches its own stream only.  [set_close_handle] leaves
    every other stream of the heap as it was, leaves the operating system
    alone and makes no Win32 call. *)
Theorem set_close_handle_frame (b : Z) :
  exists w',
    g_win32_input_stream_set_close_handle stream b w = Some (tt, w') /\
    os w' = os w /\
    List.filter is_os_call (log w') = List.filter is_os_call (log w) /\
    forall other : Z, other <> stream -> heap w' !! other = heap w !! other.
Proof.
  eexists. split; [apply (set_close_handle_runs w stream p Hstream) |].
  split; [now destruct (close_handle p =? normalised b) |].
  split; [now apply set_close_handle_log |].
  intros other Hother. destruct (close_handle p =? normalised b); [reflexivity |].
  cbn [flag_changed heap]. now apply lookup_insert_ne.
Qed.
End FlagFurther.

(** X11: the public functions check their receiver.  On an address that
    is no live stream, [get_handle] returns [NULL], [get_close_handle]
    returns [FALSE] and [set_close_handle] returns without storing or
    notifying; each logs the failed check and nothing else. *)
Theorem accessors_reject_invalid_stream `{Win32} (w : World) (stream b : Z) :
  heap w !! stream = None ->
  let warned :=
    advance w (os w) [EvCritical "G_IS_WIN32_INPUT_STREAM (stream)"] in
  g_win32_input_stream_get_handle stream w = Some (NULL, warned) /\
  g_win32_input_stream_get_close_handle stream w = Some (FALSE, warned) /\
  g_win32_input_stream_set_close_handle stream b w = Some (tt, warned) /\
  heap warned = heap w.
Proof.
  intros Hnone warned.
  assert (Hcheck : bool_decide (is_Some (heap w !! stream)) = false).
  { apply bool_decide_eq_false_2. rewrite Hnone. now intros [x Hx]. }
  unfold g_win32_input_stream_get_handle, g_win32_input_stream_get_close_handle,
    g_win32_input_stream_set_close_handle.
  unfold_run. rewrite Hcheck. repeat split.
Qed.

(** ** The property interface *)

Section PropertyRuns.
Context `{Win32}.

Variables (w : World) (stream : Z) (p : GWin32InputStreamPrivate).
Hypothesis Hstream : heap w !! stream = Some p.

Lemma set_property_runs (id : prop_id) (v : GValue) :
  g_win32_input_stream_set_property stream id v w =
  Some (tt,
        match id with
        | PROP_HANDLE =>
            {| heap := <[stream := {| handle := g_value_get_pointer v;
                                      close_handle := close_handle p |}]> (heap w);
               os := os w; log := log w |}
        | PROP_CLOSE_HANDLE =>
            {| heap := <[stream := {| handle := handle p;
                                      close_handle := g_value_get_boolean v |}]> (heap w);
               os := os w; log := log w |}
        | PROP_0 => advance w (os w) [EvInvalidPropertyId stream]
        end).
Proof.
  unfold g_win32_input_stream_set_property. unfold_run. rewrite Hstream.
  destruct id; cbn [heap os log]; rewrite ?Hstream; reflexivity.
Qed.

Lemma get_property_runs (id : prop_id) :
  g_win32_input_stream_get_property stream id w =
  Some (match id with
        | PROP_HANDLE => (Some (VPointer (handle p)), w)
        | PROP_CLOSE_HANDLE => (Some (VBoolean (close_handle p)), w)
        | PROP_0 => (None, advance w (os w) [EvInvalidPropertyId stream])
        end).
Proof.
  unfold g_win32_input_stream_get_property. unfold_run. rewrite Hstream.
  destruct id; reflexivity.
Qed.
End PropertyRuns.

Section PropertyClaims.
Context `{Win32}.

Variables (w : World) (stream : Z) (p : GWin32InputStreamPrivate).
Hypothesis Hstream : heap w !! stream = Some p.

(** X12: setting a property and getting it back.  [get_property] returns
    the pointer or boolean that [set_property] was given for the same
    property, the other property keeps its value, and neither call adds
    to the log. *)
Theorem property_round_trip (h b : Z) :
  (exists w',
      (g_win32_input_stream_set_property stream PROP_HANDLE (VPointer h);;
       g_win32_input_stream_get_property stream PROP_HANDLE) w =
        Some (Some (VPointer h), w') /\
      g_win32_input_stream_get_property stream PROP_CLOSE_HANDLE w' =
        Some (Some (VBoolean (close_handle p)), w') /\
      log w' = log w) /\
  (exists w',
      (g_win32_input_stream_set_property stream PROP_CLOSE_HANDLE (VBoolean b);;
       g_win32_input_stream_get_property stream PROP_CLOSE_HANDLE) w =
        Some (Some (VBoolean b), w') /\
      g_win32_input_stream_get_property stream PROP_HANDLE w' =
        Some (Some (VPointer (handle p)), w') /\
      log w' = log w).
Proof.
  split.
  - set (q := {| handle := h; close_handle := close_handle p |}).
    set (w1 := {| heap := <[stream := q]> (heap w); os := os w; log := log w |}).
    assert (Hq : heap w1 !! stream = Some q) by apply lookup_insert_eq.
    exists w1. unfold mbind, run_bind.
    rewrite (set_property_runs w stream p Hstream).
    cbn [g_value_get_pointer]. fold q. fold w1.
    rewrite !(get_property_runs w1 stream q Hq). repeat split.
  - set (q := {| handle := handle p; close_handle := b |}).
    set (w1 := {| heap := <[stream := q]> (heap w); os := os w; log := log w |}).
    assert (Hq : heap w1 !! stream = Some q) by apply lookup_insert_eq.
    exists w1. unfold mbind, run_bind.
    rewrite (set_property_runs w stream p Hstream).
    cbn [g_value_get_boolean]. fold q. fold w1.
    rewrite !(get_property_runs w1 stream q Hq). repeat split.
Qed.

(** X13: the property and the accessors show the same fields, and the
    two ways of setting the flag store the same.  [get_property] returns
    what [get_handle] and [get_close_handle] return; for a boolean,
    [set_property] leaves the heap [set_close_handle] leaves, but without
    a notification of its own. *)
Theorem property_agrees_with_accessors (flag : bool) :
  (exists h f,
      g_win32_input_stream_get_handle stream w = Some (h, w) /\
      g_win32_input_stream_get_property stream PROP_HANDLE w =
        Some (Some (VPointer h), w) /\
      g_win32_input_stream_get_close_handle stream w = Some (f, w) /\
      g_win32_input_stream_get_property stream PROP_CLOSE_HANDLE w =
        Some (Some (VBoolean f), w)) /\
  (exists w1 w2,
      g_win32_input_stream_set_property stream PROP_CLOSE_HANDLE
        (VBoolean (c_bool flag)) w = Some (tt, w1) /\
      g_win32_input_stream_set_close_handle stream (c_bool flag) w = Some (tt, w2) /\
      heap w1 = heap w2 /\
      log w1 = log w).
Proof.
  split.
  - exists (handle p), (close_handle p).
    rewrite !(get_property_runs w stream p Hstream).
    split; [apply (get_handle_live _ _ _ Hstream) |].
    split; [reflexivity |].
    split; [apply (get_close_handle_live _ _ _ Hstream) | reflexivity].
  - eexists _, _.
    split; [apply (set_property_runs w stream p Hstream) |].
    split; [apply (set_close_handle_runs w stream p Hstream) |].
    split; [| reflexivity].
    cbn [heap g_value_get_boolean].
    assert (Hnorm : normalised (c_bool flag) = c_bool flag) by now destruct flag.
    rewrite Hnorm.
    destruct (Z.eqb_spec (close_handle p) (c_bool flag)) as [Heq | Hne].
    + apply insert_id. rewrite Hstream, <- Heq. now destruct p.
    + reflexivity.
Qed.

(** X14: an identifier that names no property.  For any identifier
    other than the two installed ones, [set_property] stores nothing and
    [get_property] produces no value; each logs the invalid-identifier
    warning and leaves heap and operating system alone. *)
Theorem unknown_property_id (id : prop_id) (v : GValue) :
  id <> PROP_HANDLE -> id <> PROP_CLOSE_HANDLE ->
  g_win32_input_stream_set_property stream id v w =
    Some (tt, advance w (os w) [EvInvalidPropertyId stream]) /\
  g_win32_input_stream_get_property stream id w =
    Some (None, advance w (os w) [EvInvalidPropertyId stream]).
Proof.
  intros Hh Hc.
  rewrite (set_property_runs w stream p Hstream),
          (get_property_runs w stream p Hstream).
  destruct id; [split; reflexivity | now contradiction Hh | now contradiction Hc].
Qed.
End PropertyClaims.

(** ** Construction, then use *)

Section NewFurther.
Context `{Win32}.

Lemma new_runs (w : World) (handle' flag : Z) :
  handle' <> NULL ->
  g_win32_input_stream_new handle' flag w =
  Some (fresh ({[NULL]} ∪ dom (heap w)),
        {| heap := <[fresh ({[NULL]} ∪ dom (heap w)) :=
                       {| handle := handle'; close_handle := flag |}]> (heap w);
           os := os w; log := log w |}).
Proof.
  intros Hnonnull. unfold g_win32_input_stream_new.
  rewrite bool_decide_eq_false_2 by assumption.
  unfold g_object_new, set_properties, g_win32_input_stream_set_property.
  cbn [property_by_name String.eqb Ascii.eqb Bool.eqb].
  set (stream := fresh ({[NULL]} ∪ dom (heap w))) in *.
  unfold_run.
  repeat (first [rewrite lookup_insert_eq | rewrite insert_insert_eq];
          cbn [heap os log handle close_handle]).
  reflexivity.
Qed.

(** X15: a new stream works on the handle it was given.  On a stream
    returned by [new] for a non-null handle, a read on a live token calls
    [ReadFile] on that handle, and a close calls [CloseHandle] on that
    handle exactly when the stream was built with a true flag. *)
Theorem new_stream_uses_handle (w : World) (handle' : Z) (flag : bool)
    (buffer : list Byte.byte) (count : Z) (c1 c2 : GCancellable) :
  handle' <> NULL ->
  c1 <> Some true ->
  exists stream r1 r2 w',
    (s ← g_win32_input_stream_new handle' (c_bool flag);
     r1 ← g_win32_input_stream_read s buffer count c1;
     r2 ← g_win32_input_stream_close s c2;
     mret (s, r1, r2)) w = Some ((stream, r1, r2), w') /\
    List.filter is_read_call (log w') =
      (List.filter is_read_call (log w)
         ++ [EvReadFile handle' (read_length count)])%list /\
    List.filter is_release_call (log w') =
      (List.filter is_release_call (log w)
         ++ (if flag then [EvCloseHandle handle'] else []))%list.
Proof.
  intros Hnonnull Hlive.
  set (stream := fresh ({[NULL]} ∪ dom (heap w))).
  set (q := {| handle := handle'; close_handle := c_bool flag |}).
  set (w0 := {| heap := <[stream := q]> (heap w); os := os w; log := log w |}).
  assert (Hstream : heap w0 !! stream = Some q) by apply lookup_insert_eq.
  destruct (ReadFile (handle q) buffer (read_length count) (os w0))
    as [[[res buffer'] nread] o1] eqn:Hos.
  assert (Hread := read_issues_call w0 stream q buffer c1 Hstream Hlive
                     count res nread buffer' o1 Hos).
  assert (Hclose : forall es,
             List.filter is_release_call es = [] ->
             List.filter is_read_call es = [EvReadFile handle' (read_length count)] ->
             exists r2 w',
               g_win32_input_stream_close stream c2 (advance w0 o1 es) =
                 Some (r2, w') /\
               List.filter is_read_call (log w') =
                 (List.filter is_read_call (log w)
                    ++ [EvReadFile handle' (read_length count)])%list /\
               List.filter is_release_call (log w') =
                 (List.filter is_release_call (log w)
                    ++ (if flag then [EvCloseHandle handle'] else []))%list).
  { intros es Hrel Hrd.
    assert (Hstream1 : heap (advance w0 o1 es) !! stream = Some q) by exact Hstream.
    destruct (close_returns _ stream q Hstream1 c2)
      as (r2 & o2 & es2 & Hrun & Hrel2 & _ & Hrd2 & _).
    exists r2, (advance (advance w0 o1 es) o2 es2).
    split; [exact Hrun |].
    rewrite !filter_advance, Hrel, Hrd, Hrel2, Hrd2, !app_nil_r.
    split; [reflexivity |]. cbn [handle close_handle q].
    now destruct flag. }
  unfold mbind, run_bind. rewrite (new_runs w handle' (c_bool flag) Hnonnull).
  fold stream. fold q. fold w0. rewrite Hread.
  destruct (res =? 0); cbv zeta;
    (edestruct Hclose as (r2 & w' & Hrun & Hrd & Hrel);
     [| | rewrite Hrun; eexists _, _, _, _;
          (split; [reflexivity | split; [exact Hrd | exact Hrel]])];
     reflexivity).
Qed.
End NewFurther.

(** ** The last error as an [int] *)

(** Storing a [DWORD] error code in an [int] keeps every code below
    [2 ^ 31] and maps no other code onto one of them. *)
Lemma to_gint_code (d c : Z) :
  0 <= d < 2 ^ 32 -> 0 <= c < 2 ^ 31 -> (to_gint d = c <-> d = c).
Proof.
  intros Hd Hc. unfold to_gint, to_signed. cbv zeta.
  rewrite Z.mod_small by assumption.
  change (2 ^ (32 - 1)) with (2 ^ 31).
  change (2 ^ 32) with 4294967296 in *. change (2 ^ 31) with 2147483648 in *.
  destruct (Z.ltb_spec d 2147483648); lia.
Qed.

Section ReadFailure.
Context `{Win32}.

Variables (w : World) (stream : Z) (p : GWin32InputStreamPrivate).
Variable buffer : list Byte.byte.
Hypothesis Hstream : heap w !! stream = Some p.

(** X16: the two outcomes of a failed [ReadFile].  When the call fails,
    the read returns 0 or -1; with the last error a [DWORD] and the two
    end-of-stream codes ordinary (below [2 ^ 31]), it returns 0, without
    an error, exactly when the last error is one of those two codes: the
    detour of the code through an [int] confuses no other code with
    them. *)
Theorem read_failure_outcomes (cancellable : GCancellable)
    (count res nread : Z) (buffer' : list Byte.byte) (o : OS) :
  cancellable <> Some true ->
  ReadFile (handle p) buffer (read_length count) (os w) = (res, buffer', nread, o) ->
  res = 0 ->
  0 <= GetLastError o < 2 ^ 32 ->
  0 <= ERROR_HANDLE_EOF < 2 ^ 31 ->
  0 <= ERROR_BROKEN_PIPE < 2 ^ 31 ->
  exists r w',
    g_win32_input_stream_read stream buffer count cancellable w = Some (r, w') /\
    (bytes_read r = 0 \/ bytes_read r = -1) /\
    (bytes_read r = 0 <->
     GetLastError o = ERROR_HANDLE_EOF \/ GetLastError o = ERROR_BROKEN_PIPE) /\
    (bytes_read r = 0 <-> read_error r = None).
Proof.
  intros Hlive Hos -> Hd Heof Hpipe.
  rewrite (read_issues_call w stream p buffer cancellable Hstream Hlive
             count 0 nread buffer' o Hos).
  change (0 =? 0) with true. cbv iota zeta.
  pose proof (to_gint_code _ _ Hd Heof) as Hce.
  pose proof (to_gint_code _ _ Hd Hpipe) as Hcp.
  destruct (Z.eqb_spec (to_gint (GetLastError o)) ERROR_HANDLE_EOF) as [He | He];
    [| destruct (Z.eqb_spec (to_gint (GetLastError o)) ERROR_BROKEN_PIPE)
         as [Hp | Hp]];
    cbn [orb]; eexists _, _; (split; [reflexivity |]);
    cbn [bytes_read read_error]; unfold g_set_error.
  - split; [now left |]. split; [| easy].
    split; [intros _; left; now apply Hce | reflexivity].
  - split; [now left |]. split; [| easy].
    split; [intros _; right; now apply Hcp | reflexivity].
  - split; [now right |]. split.
    + split; [discriminate |].
      intros [Hd1 | Hd1]; [apply Hce in Hd1 | apply Hcp in Hd1]; contradiction.
    + split; discriminate.
Qed.
End ReadFailure.

(** ** The further properties on the simulated platform *)

Section FurtherSimulation.
Import Mock.
Local Existing Instance platform.

Lemma read_error_convention_witness :
  exists r w',
    g_win32_input_stream_read 1 [Byte.x00; Byte.x00] 2 None
      (world_with TRUE (pipe 109)) = Some (r, w') /\
    (bytes_read r = -1 <-> read_error r <> None) /\
    -1 <= bytes_read r <= Z.min 2 G_MAXINT.
Proof.
  refine (read_error_convention (world_with TRUE (pipe 109)) 1 (wrapped TRUE)
            [Byte.x00; Byte.x00] _ None 2 _ _);
    [reflexivity | lia |].
  intros res buffer' nread o Hos _. vm_compute in Hos.
  injection Hos as <- <- <- <-. vm_compute. split; discriminate.
Defined.

Lemma read_frame_witness :
  exists r w',
    g_win32_input_stream_read 1 [Byte.x00] 1 None (world_with TRUE (drained 5)) =
      Some (r, w') /\
    heap w' = heap (world_with TRUE (drained 5)) /\
    List.filter is_release_call (log w') = [] /\
    List.filter is_notification (log w') = [] /\
    (count_events is_read_call (log w') <= 1)%nat.
Proof.
  refine (read_frame (world_with TRUE (drained 5)) 1 (wrapped TRUE)
            [Byte.x00] _ None 1). reflexivity.
Defined.

Lemma read_success_witness :
  g_win32_input_stream_read 1 [Byte.x00; Byte.x00] 2 None
    (world_with TRUE (pipe 109)) =
  Some ({| bytes_read := 2; buffer_after := [Byte.x01; Byte.x02];
           read_error := None |},
        advance (world_with TRUE (pipe 109))
          {| pending := [Byte.x03]; at_end := 109; open_handles := [7];
             last_error := 0 |}
          [EvCancelPoll; EvReadFile 7 2]).
Proof.
  refine (read_success (world_with TRUE (pipe 109)) 1 (wrapped TRUE)
            [Byte.x00; Byte.x00] _ None 2 1 2 [Byte.x01; Byte.x02] _ _ _ _ _);
    [reflexivity | discriminate | reflexivity | discriminate
    | vm_compute; split; discriminate].
Defined.

Lemma read_failure_outcomes_witness :
  exists r w',
    g_win32_input_stream_read 1 [Byte.x00] 1 None (world_with TRUE (drained 5)) =
      Some (r, w') /\
    (bytes_read r = 0 \/ bytes_read r = -1) /\
    (bytes_read r = 0 <-> 5 = 38 \/ 5 = 109) /\
    (bytes_read r = 0 <-> read_error r = None).
Proof.
  refine (read_failure_outcomes (world_with TRUE (drained 5)) 1 (wrapped TRUE)
            [Byte.x00] _ None 1 0 0 [Byte.x00] (fail_with 5 (drained 5))
            _ _ _ _ _ _);
    [reflexivity | discriminate | reflexivity | reflexivity
    | vm_compute; split; [discriminate | reflexivity]
    | vm_compute; split; [discriminate | reflexivity]
    | vm_compute; split; [discriminate | reflexivity]].
Defined.

Lemma close_ignores_token_witness :
  exists r w',
    g_win32_input_stream_close 1 (Some true) (world_with TRUE (pipe 109)) =
      Some (r, w') /\
    (forall other : GCancellable,
        g_win32_input_stream_close 1 other (world_with TRUE (pipe 109)) =
        Some (r, w')) /\
    List.filter is_cancel_poll (log w') = [] /\
    List.filter is_read_call (log w') = [].
Proof.
  refine (close_ignores_token (world_with TRUE (pipe 109)) 1 (wrapped TRUE)
            _ (Some true)). reflexivity.
Defined.

Lemma close_error_convention_witness :
  exists r w',
    g_win32_input_stream_close 1 None (world_with TRUE released) = Some (r, w') /\
    (closed r = TRUE \/ closed r = FALSE) /\
    (closed r = FALSE <-> close_error r <> None).
Proof.
  refine (close_error_convention (world_with TRUE released) 1 (wrapped TRUE)
            _ None). reflexivity.
Defined.

Lemma close_twice_releases_twice_witness :
  exists r1 r2 w',
    (r1 ← g_win32_input_stream_close 1 None;
     r2 ← g_win32_input_stream_close 1 None;
     mret (r1, r2)) (world_with TRUE (pipe 109)) = Some ((r1, r2), w') /\
    heap w' = heap (world_with TRUE (pipe 109)) /\
    List.filter is_release_call (log w') = [EvCloseHandle 7; EvCloseHandle 7].
Proof.
  refine (close_twice_releases_twice (world_with TRUE (pipe 109)) 1
            (wrapped TRUE) _ None None _); [reflexivity | discriminate].
Defined.

Lemma read_after_close_witness :
  exists r1 r2 w',
    (r1 ← g_win32_input_stream_close 1 None;
     r2 ← g_win32_input_stream_read 1 [Byte.x00] 1 None;
     mret (r1, r2)) (world_with TRUE (pipe 109)) = Some ((r1, r2), w') /\
    List.filter is_read_call (log w') = [EvReadFile 7 1].
Proof.
  refine (read_after_close (world_with TRUE (pipe 109)) 1 (wrapped TRUE) _
            None None [Byte.x00] 1 _); [reflexivity | discriminate].
Defined.

Lemma set_close_handle_governs_close_witness :
  exists r w',
    (g_win32_input_stream_set_close_handle 1 0;;
     g_win32_input_stream_close 1 None) (world_with TRUE (pipe 109)) =
      Some (r, w') /\
    List.filter is_release_call (log w') = [].
Proof.
  refine (set_close_handle_governs_close (world_with TRUE (pipe 109)) 1
            (wrapped TRUE) _ 0 None). reflexivity.
Defined.

Lemma set_close_handle_last_wins_witness :
  (exists w',
      (g_win32_input_stream_set_close_handle 1 0;;
       g_win32_input_stream_set_close_handle 1 5) (world_with TRUE (pipe 109)) =
        Some (tt, w') /\
      g_win32_input_stream_get_close_handle 1 w' = Some (TRUE, w') /\
      g_win32_input_stream_get_handle 1 w' = Some (7, w')) /\
  (g_win32_input_stream_set_close_handle 1 0;;
   g_win32_input_stream_set_close_handle 1 0) (world_with TRUE (pipe 109)) =
  g_win32_input_stream_set_close_handle 1 0 (world_with TRUE (pipe 109)).
Proof.
  refine (set_close_handle_last_wins (world_with TRUE (pipe 109)) 1
            (wrapped TRUE) _ 0 5). reflexivity.
Defined.

Lemma set_close_handle_frame_witness :
  exists w',
    g_win32_input_stream_set_close_handle 1 0 (world_with TRUE (pipe 109)) =
      Some (tt, w') /\
    os w' = pipe 109 /\
    List.filter is_os_call (log w') = [] /\
    forall other : Z, other <> 1 ->
      heap w' !! other = heap (world_with TRUE (pipe 109)) !! other.
Proof.
  refine (set_close_handle_frame (world_with TRUE (pipe 109)) 1
            (wrapped TRUE) _ 0). reflexivity.
Defined.

Lemma accessors_reject_invalid_stream_witness :
  g_win32_input_stream_get_handle 2 (world_with TRUE (pipe 109)) =
    Some (NULL, advance (world_with TRUE (pipe 109)) (pipe 109)
                  [EvCritical "G_IS_WIN32_INPUT_STREAM (stream)"]) /\
  g_win32_input_stream_get_close_handle 2 (world_with TRUE (pipe 109)) =
    Some (FALSE, advance (world_with TRUE (pipe 109)) (pipe 109)
                   [EvCritical "G_IS_WIN32_INPUT_STREAM (stream)"]) /\
  g_win32_input_stream_set_close_handle 2 1 (world_with TRUE (pipe 109)) =
    Some (tt, advance (world_with TRUE (pipe 109)) (pipe 109)
                [EvCritical "G_IS_WIN32_INPUT_STREAM (stream)"]) /\
  heap (advance (world_with TRUE (pipe 109)) (pipe 109)
          [EvCritical "G_IS_WIN32_INPUT_STREAM (stream)"]) =
  heap (world_with TRUE (pipe 109)).
Proof.
  refine (accessors_reject_invalid_stream (world_with TRUE (pipe 109)) 2 1 _).
  reflexivity.
Defined.

Lemma property_round_trip_witness :
  (exists w',
      (g_win32_input_stream_set_property 1 PROP_HANDLE (VPointer 9);;
       g_win32_input_stream_get_property 1 PROP_HANDLE)
        (world_with TRUE (pipe 109)) = Some (Some (VPointer 9), w') /\
      g_win32_input_stream_get_property 1 PROP_CLOSE_HANDLE w' =
        Some (Some (VBoolean TRUE), w') /\
      log w' = []) /\
  (exists w',
      (g_win32_input_stream_set_property 1 PROP_CLOSE_HANDLE (VBoolean FALSE);;
       g_win32_input_stream_get_property 1 PROP_CLOSE_HANDLE)
        (world_with TRUE (pipe 109)) = Some (Some (VBoolean FALSE), w') /\
      g_win32_input_stream_get_property 1 PROP_HANDLE w' =
        Some (Some (VPointer 7), w') /\
      log w' = []).
Proof.
  refine (property_round_trip (world_with TRUE (pipe 109)) 1 (wrapped TRUE) _
            9 FALSE). reflexivity.
Defined.

Lemma property_agrees_with_accessors_witness :
  (exists h f,
      g_win32_input_stream_get_handle 1 (world_with TRUE (pipe 109)) =
        Some (h, world_with TRUE (pipe 109)) /\
      g_win32_input_stream_get_property 1 PROP_HANDLE (world_with TRUE (pipe 109)) =
        Some (Some (VPointer h), world_with TRUE (pipe 109)) /\
      g_win32_input_stream_get_close_handle 1 (world_with TRUE (pipe 109)) =
        Some (f, world_with TRUE (pipe 109)) /\
      g_win32_input_stream_get_property 1 PROP_CLOSE_HANDLE
        (world_with TRUE (pipe 109)) =
        Some (Some (VBoolean f), world_with TRUE (pipe 109))) /\
  (exists w1 w2,
      g_win32_input_stream_set_property 1 PROP_CLOSE_HANDLE (VBoolean FALSE)
        (world_with TRUE (pipe 109)) = Some (tt, w1) /\
      g_win32_input_stream_set_close_handle 1 FALSE (world_with TRUE (pipe 109)) =
        Some (tt, w2) /\
      heap w1 = heap w2 /\
      log w1 = []).
Proof.
  refine (property_agrees_with_accessors (world_with TRUE (pipe 109)) 1
            (wrapped TRUE) _ false). reflexivity.
Defined.

Lemma unknown_property_id_witness :
  g_win32_input_stream_set_property 1 PROP_0 (VBoolean TRUE)
    (world_with TRUE (pipe 109)) =
    Some (tt, advance (world_with TRUE (pipe 109)) (pipe 109)
                [EvInvalidPropertyId 1]) /\
  g_win32_input_stream_get_property 1 PROP_0 (world_with TRUE (pipe 109)) =
    Some (None, advance (world_with TRUE (pipe 109)) (pipe 109)
                  [EvInvalidPropertyId 1]).
Proof.
  refine (unknown_property_id (world_with TRUE (pipe 109)) 1 (wrapped TRUE) _
            PROP_0 (VBoolean TRUE) _ _); [reflexivity | discriminate | discriminate].
Defined.

Lemma new_stream_uses_handle_witness :
  exists stream r1 r2 w',
    (s ← g_win32_input_stream_new 7 TRUE;
     r1 ← g_win32_input_stream_read s [Byte.x00; Byte.x00] 2 None;
     r2 ← g_win32_input_stream_close s None;
     mret (s, r1, r2)) (boot (pipe 109)) = Some ((stream, r1, r2), w') /\
    List.filter is_read_call (log w') = [EvReadFile 7 2] /\
    List.filter is_release_call (log w') = [EvCloseHandle 7].
Proof.
  refine (new_stream_uses_handle (boot (pipe 109)) 7 true [Byte.x00; Byte.x00]
            2 None None _ _); discriminate.
Defined.
End FurtherSimulation.
